(** * poll-automation: the LLM answering service (src/python/llm_service.py)

    A shallow embedding of [LLMService] and of the functions it is built
    from, followed by the properties of the answer-generation pipeline.

    Modelling conventions.
    - Python [str] is the [string] of its UTF-8 bytes; case folding,
      whitespace, character counts and the regular expression classes are
      the ASCII ones, so statements that depend on them are made for
      ASCII text.
    - Python [float] (confidence, cost, delays) is an exact rational [Q]:
      rounding is outside the model.  A non-finite float is a value of
      its own ([PyNonFinite]) that a JSON document can hold; as a
      confidence it has no rational value, and [py_float] does not
      convert it.  An [int] is kept apart from a [float], since
      [float()] raises on an [int] beyond the float range.
    - The interpreter is CPython 3.11 or later with its default limits:
      [json.loads] refuses an integer literal of more than 4300 digits.
      The recursion limit is outside the model; statements about a
      decoded reply are made for texts with a bounded number of
      brackets.
    - A [dict] is a [gmap] keyed by strings; a decoded JSON document and
      any value stored in an [Answer] is a [pyval].
    - Effects (the service's counters, the [random] module, the provider
      behind the client objects, [asyncio.sleep]) live in a [World] that
      is threaded through the [Py] monad; an exception is the [Raise]
      outcome and keeps the world reached when it was raised. *)

From Stdlib Require Import QArith Qround Lqa ZArith String Ascii List.
From stdpp Require Import base option list gmap strings pretty.

Set Warnings "-register-all".
Open Scope string_scope.

(** ** Python values *)

(** the floats that are no number *)
Inductive nonfinite := NaN | Infinity | NegInfinity.

Inductive pyval :=
| PyNone
| PyBool (b : bool)
| PyInt (z : Z)
| PyNum (q : Q)
| PyNonFinite (k : nonfinite)
| PyStr (s : string)
| PyList (l : list pyval)
| PyDict (d : gmap string pyval).

(** [d.get(key, default)] *)
Definition dict_get {V} (d : gmap string V) (key : string) (default : V) : V :=
  match d !! key with
  | Some v => v
  | None => default
  end.

(** ** Strings *)

Module Str.

Definition code (c : ascii) : nat := nat_of_ascii c.

Definition is_digit (c : ascii) : bool :=
  (48 <=? code c)%nat && (code c <=? 57)%nat.

Definition is_upper (c : ascii) : bool :=
  (65 <=? code c)%nat && (code c <=? 90)%nat.

Definition is_lower (c : ascii) : bool :=
  (97 <=? code c)%nat && (code c <=? 122)%nat.

(** [\w] of the [re] module *)
Definition is_word (c : ascii) : bool :=
  is_digit c || is_upper c || is_lower c || (code c =? 95)%nat.

(** the characters [str.strip()] removes *)
Definition is_space (c : ascii) : bool :=
  ((9 <=? code c)%nat && (code c <=? 13)%nat)
  || ((28 <=? code c)%nat && (code c <=? 32)%nat).

Definition lower_char (c : ascii) : ascii :=
  if is_upper c then ascii_of_nat (code c + 32) else c.

(** [s.lower()] *)
Fixpoint lower (s : string) : string :=
  match s with
  | EmptyString => EmptyString
  | String c r => String (lower_char c) (lower r)
  end.

(** [c in s] for a single character *)
Fixpoint has_char (c : ascii) (s : string) : bool :=
  match s with
  | EmptyString => false
  | String d r => Ascii.eqb c d || has_char c r
  end.

(** [s.startswith(p)] *)
Fixpoint starts_with (p s : string) : bool :=
  match p, s with
  | EmptyString, _ => true
  | String a p', String b s' => Ascii.eqb a b && starts_with p' s'
  | String _ _, EmptyString => false
  end.

(** [needle in hay] *)
Fixpoint contains (needle hay : string) : bool :=
  starts_with needle hay
  || match hay with
     | EmptyString => false
     | String _ r => contains needle r
     end.

Fixpoint lstrip (s : string) : string :=
  match s with
  | EmptyString => EmptyString
  | String c r => if is_space c then lstrip r else s
  end.

Fixpoint rstrip (s : string) : string :=
  match s with
  | EmptyString => EmptyString
  | String c r =>
      match rstrip r with
      | EmptyString => if is_space c then EmptyString else String c EmptyString
      | r' => String c r'
      end
  end.

(** [s.strip()] *)
Definition strip (s : string) : string := rstrip (lstrip s).

(** [s[:n]] *)
Definition slice_to (n : nat) (s : string) : string := substring 0 n s.

(** the remainder of [s] after the prefix [p], when [s] starts with [p] *)
Fixpoint after_prefix (p s : string) : option string :=
  match p, s with
  | EmptyString, _ => Some s
  | String a p', String b s' => if Ascii.eqb a b then after_prefix p' s' else None
  | String _ _, EmptyString => None
  end.

(** the leading run of decimal digits, and what follows it *)
Fixpoint span_digits (s : string) : list ascii * string :=
  match s with
  | String c r =>
      if is_digit c then let '(ds, r') := span_digits r in (c :: ds, r')
      else ([], s)
  | EmptyString => ([], s)
  end.

(** the double quote character *)
Definition dquote : ascii := ascii_of_nat 34.

(** [s] with every apostrophe turned into a double quote: a way to write
    text that contains double quotes *)
Fixpoint quoted (s : string) : string :=
  match s with
  | EmptyString => EmptyString
  | String c r => String (if Ascii.eqb c "'" then dquote else c) (quoted r)
  end.

Definition digit_val (c : ascii) : Z := Z.of_nat (code c) - 48.

(** the number a run of decimal digits denotes *)
Definition digits_val (ds : list ascii) : Z :=
  fold_left (fun acc c => acc * 10 + digit_val c)%Z ds 0%Z.

End Str.

(** ** The library functions the parser calls

    [json.loads], [float] and the two regular expressions are library
    code; they are given here by direct definitions of what they compute
    on the text the service handles. *)

Module Json.

(** the four characters JSON allows between tokens *)
Definition is_ws (c : ascii) : bool :=
  let n := Str.code c in
  (n =? 32)%nat || (n =? 9)%nat || (n =? 10)%nat || (n =? 13)%nat.

Fixpoint skip_ws (s : string) : string :=
  match s with
  | String c r => if is_ws c then skip_ws r else s
  | EmptyString => s
  end.

Definition pow10 (n : nat) : positive := Z.to_pos (10 ^ Z.of_nat n).

(** [m * 10^e] *)
Definition scale10 (m : Q) (e : Z) : Q :=
  match e with
  | Z0 => m
  | Zpos p => (Qnum m * Z.pos (Pos.pow 10 p)) # Qden m
  | Zneg p => Qnum m # (Qden m * Pos.pow 10 p)
  end.

(** an optional exponent [[eE][-+]?\d+]; absent, the text is left as it is *)
Definition exponent (s : string) : option Z * string :=
  match s with
  | String c r =>
      if Ascii.eqb c "e" || Ascii.eqb c "E" then
        let '(neg, r1) :=
          match r with
          | String "-" r' => (true, r')
          | String "+" r' => (false, r')
          | _ => (false, r)
          end in
        match Str.span_digits r1 with
        | ([], _) => (None, s)
        | (ds, r2) =>
            (Some (if neg then - Str.digits_val ds else Str.digits_val ds)%Z, r2)
        end
      else (None, s)
  | EmptyString => (None, s)
  end.

(** an optional fraction [\.\d+]: its digits and what follows *)
Definition fraction (s : string) : list ascii * string :=
  match s with
  | String "." r =>
      match Str.span_digits r with
      | ([], _) => ([], s)
      | (ds, r') => (ds, r')
      end
  | _ => ([], s)
  end.

(** the most digits of an integer literal that [int] converts *)
Definition max_str_digits : nat := 4300.

(** a number: an optional minus sign, an integer part without a leading
    zero, an optional fraction and an optional exponent; it is an [int]
    when it has neither fraction nor exponent, and a [float] otherwise;
    an [int] of more than [max_str_digits] digits is refused *)
Definition number (s : string) : option (pyval * string) :=
  let '(neg, s1) :=
    match s with
    | String "-" r => (true, r)
    | _ => (false, s)
    end in
  let '(ip, s2) :=
    match s1 with
    | String "0" r => (["0"%char], r)
    | _ => Str.span_digits s1
    end in
  match ip with
  | [] => None
  | _ =>
      let '(fp, s3) := fraction s2 in
      let '(e, s4) := exponent s3 in
      let m := Str.digits_val (ip ++ fp) in
      let m := (if neg then - m else m)%Z in
      match fp, e with
      | [], None =>
          if (max_str_digits <? length ip)%nat then None else Some (PyInt m, s4)
      | _, _ => Some (PyNum (scale10 (m # pow10 (length fp)) (default 0%Z e)), s4)
      end
  end.

Definition hex_val (c : ascii) : option nat :=
  let n := Str.code c in
  if Str.is_digit c then Some (n - 48)%nat
  else if (97 <=? n)%nat && (n <=? 102)%nat then Some (n - 87)%nat
  else if (65 <=? n)%nat && (n <=? 70)%nat then Some (n - 55)%nat
  else None.

(** the character a one-letter escape stands for *)
Definition escape (e : ascii) : option ascii :=
  if Ascii.eqb e Str.dquote then Some Str.dquote
  else if Ascii.eqb e "\" then Some "\"%char
  else if Ascii.eqb e "/" then Some "/"%char
  else if Ascii.eqb e "b" then Some (ascii_of_nat 8)
  else if Ascii.eqb e "f" then Some (ascii_of_nat 12)
  else if Ascii.eqb e "n" then Some (ascii_of_nat 10)
  else if Ascii.eqb e "r" then Some (ascii_of_nat 13)
  else if Ascii.eqb e "t" then Some (ascii_of_nat 9)
  else None.

(** the UTF-8 bytes of a code point (a lone surrogate in its three-byte
    form) *)
Definition utf8 (cp : N) : string :=
  let byte (n : N) := ascii_of_N n in
  let cont (n : N) := byte (128 + n mod 64)%N in
  if (cp <? 128)%N then String (byte cp) EmptyString
  else if (cp <? 2048)%N then
    String (byte (192 + cp / 64)%N) (String (cont cp) EmptyString)
  else if (cp <? 65536)%N then
    String (byte (224 + cp / 4096)%N)
      (String (cont (cp / 64)%N) (String (cont cp) EmptyString))
  else
    String (byte (240 + cp / 262144)%N)
      (String (cont (cp / 4096)%N)
         (String (cont (cp / 64)%N) (String (cont cp) EmptyString))).

(** the code point four hexadecimal digits denote *)
Definition hex4 (h1 h2 h3 h4 : ascii) : option N :=
  a ← hex_val h1; b ← hex_val h2; c ← hex_val h3; d ← hex_val h4;
  Some (N.of_nat (((a * 16 + b) * 16 + c) * 16 + d)).

Definition is_high_surrogate (cp : N) : bool := (55296 <=? cp)%N && (cp <=? 56319)%N.
Definition is_low_surrogate (cp : N) : bool := (56320 <=? cp)%N && (cp <=? 57343)%N.

(** the body of a string literal, after its opening quote: the text up
    to the closing quote, escapes resolved, and what follows the quote;
    a high surrogate escape directly followed by a low surrogate escape
    is one code point *)
Fixpoint str_body (s : string) : option (string * string) :=
  match s with
  | EmptyString => None
  | String "\" (String "u" (String h1 (String h2 (String h3 (String h4 r))))) =>
      cp ← hex4 h1 h2 h3 h4;
      let single := '(t, r') ← str_body r; Some (utf8 cp +:+ t, r') in
      if is_high_surrogate cp then
        match r with
        | String "\" (String "u" (String g1 (String g2 (String g3 (String g4 r2))))) =>
            match hex4 g1 g2 g3 g4 with
            | Some lo =>
                if is_low_surrogate lo then
                  '(t, r') ← str_body r2;
                  Some (utf8 (65536 + (cp - 55296) * 1024 + (lo - 56320))%N +:+ t, r')
                else single
            | None => None
            end
        | _ => single
        end
      else single
  | String "\" (String e r) =>
      c ← escape e; '(t, r') ← str_body r; Some (String c t, r')
  | String "\" EmptyString => None
  | String c r =>
      if Ascii.eqb c Str.dquote then Some (EmptyString, r)
      else if (Str.code c <? 32)%nat then None
      else '(t, r') ← str_body r; Some (String c t, r')
  end.

(** the constants: null, true, false, and the three non-finite floats
    that [json.loads] takes as well *)
Definition constant (s : string) : option (pyval * string) :=
  let literal (text : string) (v : pyval) : option (pyval * string) :=
    r ← Str.after_prefix text s; Some (v, r) in
  literal "null" PyNone ∪ literal "true" (PyBool true)
  ∪ literal "false" (PyBool false) ∪ literal "NaN" (PyNonFinite NaN)
  ∪ literal "Infinity" (PyNonFinite Infinity)
  ∪ literal "-Infinity" (PyNonFinite NegInfinity).

Fixpoint value (fuel : nat) (s : string) : option (pyval * string) :=
  match fuel with
  | O => None
  | S fuel =>
      match s with
      | String "{" r =>
          match skip_ws r with
          | String "}" r' => Some (PyDict ∅, r')
          | r' => members fuel ∅ r'
          end
      | String "[" r =>
          match skip_ws r with
          | String "]" r' => Some (PyList [], r')
          | r' => elements fuel [] r'
          end
      | String c r =>
          if Ascii.eqb c Str.dquote then
            '(t, r') ← str_body r; Some (PyStr t, r')
          else
            match constant s with
            | Some v => Some v
            | None => number s
            end
      | EmptyString => None
      end
  end
with members (fuel : nat) (acc : gmap string pyval) (s : string)
  : option (pyval * string) :=
  match fuel with
  | O => None
  | S fuel =>
      match s with
      | String c r =>
          if Ascii.eqb c Str.dquote then
            '(k, r1) ← str_body r;
            match skip_ws r1 with
            | String ":" r2 =>
                '(v, r3) ← value fuel (skip_ws r2);
                let acc := <[k := v]> acc in
                match skip_ws r3 with
                | String "," r4 => members fuel acc (skip_ws r4)
                | String "}" r4 => Some (PyDict acc, r4)
                | _ => None
                end
            | _ => None
            end
          else None
      | EmptyString => None
      end
  end
with elements (fuel : nat) (acc : list pyval) (s : string)
  : option (pyval * string) :=
  match fuel with
  | O => None
  | S fuel =>
      '(v, r1) ← value fuel s;
      match skip_ws r1 with
      | String "," r2 => elements fuel (acc ++ [v]) (skip_ws r2)
      | String "]" r2 => Some (PyList (acc ++ [v]), r2)
      | _ => None
      end
  end.

(** [json.loads(s)]; [None] stands for [JSONDecodeError], or for the
    ValueError of an integer literal with too many digits *)
Definition loads (s : string) : option pyval :=
  '(v, r) ← value (S (String.length s)) (skip_ws s);
  match skip_ws r with
  | EmptyString => Some v
  | _ => None
  end.

End Json.

(** the whitespace [float] skips around an ASCII text: tab to carriage
    return, and the space *)
Definition is_float_space (c : ascii) : bool :=
  ((9 <=? Str.code c)%nat && (Str.code c <=? 13)%nat) || (Str.code c =? 32)%nat.

Fixpoint float_lstrip (s : string) : string :=
  match s with
  | EmptyString => EmptyString
  | String c r => if is_float_space c then float_lstrip r else s
  end.

Fixpoint float_rstrip (s : string) : string :=
  match s with
  | EmptyString => EmptyString
  | String c r =>
      match float_rstrip r with
      | EmptyString => if is_float_space c then EmptyString else String c EmptyString
      | r' => String c r'
      end
  end.

(** a run of digits in which single underscores may separate digits: its
    digits, and the rest of the text *)
Fixpoint digit_part (s : string) : list ascii * string :=
  match s with
  | String c r =>
      if Str.is_digit c then
        match r with
        | String "_" (String d _ as r1) =>
            if Str.is_digit d then let '(ds, r') := digit_part r1 in (c :: ds, r')
            else ([c], r)
        | _ => let '(ds, r') := digit_part r in (c :: ds, r')
        end
      else ([], s)
  | EmptyString => ([], s)
  end.

(** an optional exponent of a [float] text; absent, the text is left as
    it is *)
Definition float_exponent (s : string) : Z * string :=
  match s with
  | String c r =>
      if Ascii.eqb c "e" || Ascii.eqb c "E" then
        let '(neg, r1) :=
          match r with
          | String "-" r' => (true, r')
          | String "+" r' => (false, r')
          | _ => (false, r)
          end in
        match digit_part r1 with
        | ([], _) => (0%Z, s)
        | (ds, r2) => ((if neg then - Str.digits_val ds else Str.digits_val ds)%Z, r2)
        end
      else (0%Z, s)
  | EmptyString => (0%Z, s)
  end.

(** [float(s)] for an ASCII string: optional sign, digits with an
    optional point, optional exponent, surrounded by optional whitespace.
    The texts of the non-finite values (inf, infinity and nan in any
    case, with an optional sign), which [float] accepts as well, have no
    value here and come out as [None]. *)
Definition float_of_str (s : string) : option Q :=
  let s := float_rstrip (float_lstrip s) in
  let '(neg, s1) :=
    match s with
    | String "-" r => (true, r)
    | String "+" r => (false, r)
    | _ => (false, s)
    end in
  let '(ip, s2) := digit_part s1 in
  let '(fp, s3) :=
    match s2 with
    | String "." r => digit_part r
    | _ => ([], s2)
    end in
  match (ip ++ fp)%list with
  | [] => None
  | ds =>
      let '(e, s4) := float_exponent s3 in
      match s4 with
      | EmptyString =>
          let m := Str.digits_val ds in
          Some (Json.scale10 ((if neg then - m else m)%Z # Json.pow10 (length fp)) e)
      | _ => None
      end
  end.

Module Re.

(** the suffix of [s] that starts at its first opening brace *)
Fixpoint from_open (s : string) : option string :=
  match s with
  | EmptyString => None
  | String c r => if Ascii.eqb c "{" then Some s else from_open r
  end.

(** the prefix of [s] that ends at its last closing brace *)
Fixpoint upto_close (s : string) : option string :=
  match s with
  | EmptyString => None
  | String c r =>
      match upto_close r with
      | Some t => Some (String c t)
      | None => if Ascii.eqb c "}" then Some (String c EmptyString) else None
      end
  end.

(** [re.search(r'\{.*\}', s, re.DOTALL)], the text of the match: the
    leftmost opening brace, then greedily up to the last closing brace *)
Definition search_braces (s : string) : option string :=
  from_open s ≫= upto_close.

(** a word boundary in front of [s], the previous character being a
    word character *)
Definition boundary (s : string) : bool :=
  match s with
  | EmptyString => true
  | String c _ => negb (Str.is_word c)
  end.

(** [([1-9]|10)\b] matched at the start of [s] *)
Definition rating_here (s : string) : option string :=
  match s with
  | String c r =>
      if Str.is_digit c && negb (Ascii.eqb c "0") then
        if boundary r then Some (String c EmptyString)
        else
          match c, r with
          | "1"%char, String "0" r' => if boundary r' then Some "10" else None
          | _, _ => None
          end
      else None
  | EmptyString => None
  end.

Fixpoint rating_from (prev_word : bool) (s : string) : option string :=
  match s with
  | EmptyString => None
  | String c r =>
      match (if prev_word then None else rating_here s) with
      | Some m => Some m
      | None => rating_from (Str.is_word c) r
      end
  end.

(** the first element of [re.findall(r'\b([1-9]|10)\b', s)], if any *)
Definition first_rating (s : string) : option string := rating_from false s.

End Re.

(** ** Data model *)

Module Question.
Record t := mk {
  id : Z;
  text : string;
  type : string;
  options : list (gmap string string);
  required : bool
}.
End Question.

Module Answer.
Record t := mk {
  question_id : Z;
  value : pyval;
  confidence : Q;
  reasoning : pyval
}.

Definition with_value (v : pyval) (a : t) : t :=
  mk (question_id a) v (confidence a) (reasoning a).

Definition with_confidence (c : Q) (a : t) : t :=
  mk (question_id a) (value a) c (reasoning a).
End Answer.

(** ** The world the service runs in *)

(** What the provider does with one API call. *)
Inductive provider_reply :=
| CallRaises                (* network error, timeout, non-2xx status *)
| BadEnvelope               (* a response without choices[0] / content[0] *)
| Content (s : string).     (* the text of the first choice *)

Record World := mkWorld {
  (* LLMService *)
  openai_client : bool;               (* self.openai_client is not None *)
  anthropic_client : bool;            (* self.anthropic_client is not None *)
  total_cost : Q;
  request_count : Z;
  (* the random module: the raw draws, and how many were taken *)
  rand_tape : nat -> N;
  rand_pos : nat;
  (* the provider: its reply to each call, and how many calls were made *)
  provider_tape : nat -> provider_reply;
  provider_calls : nat;
  (* the delays passed to asyncio.sleep, latest first *)
  slept : list Q
}.

Definition set_total_cost (c : Q) (w : World) : World :=
  mkWorld (openai_client w) (anthropic_client w) c (request_count w)
          (rand_tape w) (rand_pos w) (provider_tape w) (provider_calls w) (slept w).

Definition set_request_count (n : Z) (w : World) : World :=
  mkWorld (openai_client w) (anthropic_client w) (total_cost w) n
          (rand_tape w) (rand_pos w) (provider_tape w) (provider_calls w) (slept w).

Definition set_rand_pos (n : nat) (w : World) : World :=
  mkWorld (openai_client w) (anthropic_client w) (total_cost w) (request_count w)
          (rand_tape w) n (provider_tape w) (provider_calls w) (slept w).

Definition set_provider_calls (n : nat) (w : World) : World :=
  mkWorld (openai_client w) (anthropic_client w) (total_cost w) (request_count w)
          (rand_tape w) (rand_pos w) (provider_tape w) n (slept w).

Definition set_slept (l : list Q) (w : World) : World :=
  mkWorld (openai_client w) (anthropic_client w) (total_cost w) (request_count w)
          (rand_tape w) (rand_pos w) (provider_tape w) (provider_calls w) l.

(** ** Exceptions and the [Py] monad *)

Inductive exn :=
| Exception (msg : string)
| IndexError
| TypeError
| ValueError
| AttributeError
| JSONDecodeError
| ZeroDivisionError
| OverflowError
| APIError
| RetryError.

Inductive result (A : Type) :=
| Ok (a : A)
| Raise (e : exn).
Arguments Ok {A} a.
Arguments Raise {A} e.

Definition Py (A : Type) : Type := World -> result A * World.

#[global] Instance Py_ret : MRet Py := fun A a w => (Ok a, w).

#[global] Instance Py_bind : MBind Py := fun A B f m w =>
  match m w with
  | (Ok a, w') => f a w'
  | (Raise e, w') => (Raise e, w')
  end.

Definition raise {A} (e : exn) : Py A := fun w => (Raise e, w).

(** [try: body except Exception as e: handler] *)
Definition try_except {A} (body : Py A) (handler : exn -> Py A) : Py A :=
  fun w =>
    match body w with
    | (Ok a, w') => (Ok a, w')
    | (Raise e, w') => handler e w'
    end.

(** run [m] and hand back its outcome as a value *)
Definition capture {A} (m : Py A) : Py (result A) :=
  fun w => let '(r, w') := m w in (Ok r, w').

Definition get {A} (f : World -> A) : Py A := fun w => (Ok (f w), w).
Definition modify (f : World -> World) : Py unit := fun w => (Ok tt, f w).

(** a [for] loop whose body yields one value per element *)
Fixpoint for_each {A B} (f : A -> Py B) (l : list A) : Py (list B) :=
  match l with
  | [] => mret []
  | x :: l' => y ← f x; ys ← for_each f l'; mret (y :: ys)
  end.

(** [seq[i]] *)
Definition index {A} (l : list A) (i : nat) : Py A :=
  match l !! i with
  | Some x => mret x
  | None => raise IndexError
  end.

(** ** The [random] module and [asyncio.sleep] *)

(** the next raw draw *)
Definition draw : Py N :=
  fun w => (Ok (rand_tape w (rand_pos w)), set_rand_pos (S (rand_pos w)) w).

(** [random.random()]: 53 random bits over 2^53 *)
Definition random_random : Py Q :=
  k ← draw; mret (Z.of_N (k mod 2 ^ 53) # 2 ^ 53).

(** [random.uniform(a, b)] is [a + (b - a) * random()] *)
Definition random_uniform (a b : Q) : Py Q :=
  r ← random_random; mret (a + (b - a) * r)%Q.

(** [random.choice(seq)]; an empty sequence raises [IndexError] *)
Definition random_choice {A} (l : list A) : Py A :=
  match l with
  | [] => raise IndexError
  | _ => k ← draw; index l (N.to_nat k mod length l)
  end.

(** [random.randint(a, b)]; an empty range raises [ValueError] *)
Definition random_randint (a b : Z) : Py Z :=
  if (b <? a)%Z then raise ValueError
  else k ← draw; mret (a + Z.of_N k mod (b - a + 1))%Z.

(** [await asyncio.sleep(d)] *)
Definition sleep (d : Q) : Py unit := modify (fun w => set_slept (d :: slept w) w).

(** ** tenacity's [retry] decorator

    [@retry(stop=stop_after_attempt(n), wait=w)] calls the function; when
    the call raises and fewer than [n] attempts were made it sleeps for
    [w attempt] and calls again, and when the [n]-th attempt raises it
    raises [RetryError]. *)

(** [wait_exponential(multiplier, min, max)] after the given attempt *)
Definition wait_exponential (multiplier min max : Z) (attempt : nat) : Z :=
  Z.max (Z.max 0 min) (Z.min (multiplier * 2 ^ (Z.of_nat attempt - 1)) max).

Fixpoint retrying {A} (more : nat) (attempt : nat) (wait : nat -> Z) (f : Py A) : Py A :=
  try_except f (fun _ =>
    match more with
    | O => raise RetryError
    | S more' => sleep (inject_Z (wait attempt));; retrying more' (S attempt) wait f
    end).

Definition retry {A} (stop_after_attempt : nat) (wait : nat -> Z) (f : Py A) : Py A :=
  retrying (stop_after_attempt - 1) 1 wait f.

(** ** LLMService *)

Definition human_patterns_uncertainty : list string :=
  [ "I'm not entirely sure, but I think";
    "If I had to guess, I'd say";
    "From what I remember";
    "I believe";
    "As far as I know" ].

Definition human_patterns_hedging : list string :=
  [ "probably"; "likely"; "I suppose"; "perhaps";
    "it seems to me"; "in my opinion"; "I'd say" ].

Definition fallback_phrases : list string :=
  [ "I'm not sure about this";
    "I don't have a strong opinion";
    "I'd need to think about this more";
    "Not really sure" ].

(** [question.type in ['single-choice', 'multiple-choice'] and question.options] *)
Definition is_choice_with_options (question : Question.t) : bool :=
  (String.eqb (Question.type question) "single-choice"
   || String.eqb (Question.type question) "multiple-choice")
  && negb (Nat.eqb (length (Question.options question)) 0).

(** [random.choice(question.options).get('value', question.options[0].get('label', ''))] *)
Definition random_option_value (question : Question.t) : Py string :=
  option ← random_choice (Question.options question);
  first ← index (Question.options question) 0;
  mret (dict_get option "value" (dict_get first "label" "")).

Definition _generate_fallback_answer (question : Question.t) : Py Answer.t :=
  value ←
    (if String.eqb (Question.type question) "yes-no" then
       random_choice ["yes"; "no"]
     else if is_choice_with_options question then
       random_option_value question
     else if String.eqb (Question.type question) "rating" then
       n ← random_randint 3 7; mret (pretty n)
     else
       random_choice fallback_phrases);
  mret (Answer.mk (Question.id question) (PyStr value) (3 # 10)
                  (PyStr "Fallback answer due to API failure")).

(** [any(word in text.lower() for word in words)] *)
Definition any_word_in (words : list string) (text : string) : bool :=
  existsb (fun word => Str.contains word (Str.lower text)) words.

Definition _extract_answer_from_text (question : Question.t) (text : string) : Py string :=
  let text := Str.strip text in
  if String.eqb (Question.type question) "yes-no" then
    if any_word_in ["yes"; "true"; "agree"; "correct"] text then mret "yes"
    else if any_word_in ["no"; "false"; "disagree"; "incorrect"] text then mret "no"
    else random_choice ["yes"; "no"]
  else if is_choice_with_options question then
    match
      List.find (fun option =>
              Str.contains (Str.lower (dict_get option "label" (dict_get option "value" "")))
                           (Str.lower text))
           (Question.options question)
    with
    | Some option => mret (dict_get option "value" (dict_get option "label" ""))
    | None => random_option_value question
    end
  else if String.eqb (Question.type question) "rating" then
    match Re.first_rating text with
    | Some number => mret number
    | None => n ← random_randint 3 7; mret (pretty n)
    end
  else
    if (200 <? String.length text)%nat then mret (Str.slice_to 200 text +:+ "...")
    else if String.eqb text "" then mret "I'm not sure about this one."
    else mret text.

(** the least magnitude of an [int] that [float] does not convert: the
    midpoint between the largest float and two to the power 1024 *)
Definition float_int_bound : Z := 2 ^ 1024 - 2 ^ 970.

(** [float(v)]: an [int] beyond the float range raises OverflowError; a
    non-finite float, and a string whose text names one (see
    [float_of_str]), have no rational value and are taken as rejected *)
Definition py_float (v : pyval) : Py Q :=
  match v with
  | PyNum q => mret q
  | PyInt z =>
      if (Z.abs z <? float_int_bound)%Z then mret (inject_Z z)
      else raise OverflowError
  | PyBool b => mret (if b then 1 else 0)%Q
  | PyStr s =>
      match float_of_str s with
      | Some q => mret q
      | None => raise ValueError
      end
  | PyNonFinite _ => raise ValueError
  | PyNone | PyList _ | PyDict _ => raise TypeError
  end.

(** [json.loads(s)] *)
Definition json_loads (s : string) : Py pyval :=
  match Json.loads s with
  | Some v => mret v
  | None => raise JSONDecodeError
  end.

(** the receiver of [data.get] has to be a dict *)
Definition as_dict (v : pyval) : Py (gmap string pyval) :=
  match v with
  | PyDict d => mret d
  | _ => raise AttributeError
  end.

Definition _parse_llm_response (question : Question.t) (response : string) : Py Answer.t :=
  let from_text : Py Answer.t :=
    answer_value ← _extract_answer_from_text question response;
    mret (Answer.mk (Question.id question) (PyStr answer_value) (7 # 10)
                    (PyStr "Parsed from text response")) in
  try_except
    (if Str.has_char "{" response && Str.has_char "}" response then
       match Re.search_braces response with
       | Some json_match =>
           data ← json_loads json_match ≫= as_dict;
           confidence ← py_float (dict_get data "confidence" (PyNum (7 # 10)));
           mret (Answer.mk (Question.id question)
                           (dict_get data "answer" (PyStr ""))
                           confidence
                           (dict_get data "reasoning" (PyStr "")))
       | None => from_text
       end
     else from_text)
    (fun _ => _generate_fallback_answer question).

(** one call of the configured client's completion API: the provider's
    next reply is consumed; the prompt is built by string formatting
    that cannot raise and does not constrain the reply *)
Definition api_call : Py (option string) :=
  fun w =>
    let w' := set_provider_calls (S (provider_calls w)) w in
    match provider_tape w (provider_calls w) with
    | CallRaises => (Raise APIError, w')
    | BadEnvelope => (Ok None, w')
    | Content s => (Ok (Some s), w')
    end.

(** [response.choices[0].message.content], [response.content[0].text] *)
Definition first_content (response : option string) : Py string :=
  match response with
  | Some s => mret s
  | None => raise IndexError
  end.

Definition add_cost (c : Q) : Py unit :=
  modify (fun w => set_total_cost (total_cost w + c)%Q w).

Definition _generate_openai_answer (question : Question.t) (context : option string)
  : Py Answer.t :=
  try_except
    (response ← api_call;
     add_cost (2 # 1000);;
     content ← first_content response;
     _parse_llm_response question content)
    (fun e => raise e).

Definition _generate_anthropic_answer (question : Question.t) (context : option string)
  : Py Answer.t :=
  try_except
    (response ← api_call;
     add_cost (1 # 1000);;
     content ← first_content response;
     _parse_llm_response question content)
    (fun e => raise e).

(** the function under the decorator *)
Definition generate_answer_wrapped (question : Question.t) (context : option string)
  : Py Answer.t :=
  try_except
    (response ←
       (get openai_client ≫= fun openai : bool =>
        if openai then _generate_openai_answer question context
        else
          get anthropic_client ≫= fun anthropic : bool =>
          if anthropic then _generate_anthropic_answer question context
          else raise (Exception "No LLM clients available"));
     modify (fun w => set_request_count (request_count w + 1) w);;
     mret response)
    (fun _ => _generate_fallback_answer question).

(** [@retry(stop=stop_after_attempt(3), wait=wait_exponential(multiplier=1, min=4, max=10))] *)
Definition generate_answer (question : Question.t) (context : option string)
  : Py Answer.t :=
  retry 3 (wait_exponential 1 4 10) (generate_answer_wrapped question context).

Definition Qltb (x y : Q) : bool := negb (Qle_bool y x).

(** [max(a, b)]: [b] when it is greater than [a], otherwise [a] *)
Definition py_max (a b : Q) : Q := if Qltb a b then b else a.

Definition make_answer_human_like (answer : Answer.t) (question : Question.t)
  : Py Answer.t :=
  answer ←
    match Answer.value answer, String.eqb (Question.type question) "text" with
    | PyStr value, true =>
        r ← random_random;
        value ←
          (if Qltb r (3 # 10) then
             pattern ← random_choice human_patterns_uncertainty;
             mret (pattern +:+ " " +:+ Str.lower value)
           else mret value);
        r ← random_random;
        value ←
          (if Qltb r (2 # 10) then
             hedge ← random_choice human_patterns_hedging;
             mret (value +:+ ", " +:+ hedge)
           else mret value);
        mret (Answer.with_value (PyStr value) answer)
    | _, _ => mret answer
    end;
  delta ← random_uniform (1 # 10) (3 # 10);
  mret (Answer.with_confidence (py_max (2 # 10) (Answer.confidence answer - delta)) answer).

(** a [for] loop that updates a local variable *)
Fixpoint for_fold {A S} (body : S -> A -> Py S) (s : S) (l : list A) : Py S :=
  match l with
  | [] => mret s
  | x :: l' => s' ← body s x; for_fold body s' l'
  end.

(** [range(0, stop, step)] *)
Definition range_step (stop step : nat) : list nat :=
  List.map (fun k => k * step)%nat (seq 0 (Nat.div (stop + step - 1) step)).

(** [l[i:j]] *)
Definition slice {A} (i j : nat) (l : list A) : list A := take (j - i) (drop i l).

(** [enumerate(l)] *)
Definition enumerate {A} (l : list A) : list (nat * A) := combine (seq 0 (length l)) l.

Definition batch_size : nat := 3.

(** [await asyncio.gather( *tasks, return_exceptions=True)]: the tasks do
    not suspend before they finish, so they run one after the other in
    the order of the batch, and each outcome is kept in place *)
Definition gather {A B} (task : A -> Py B) (batch : list A) : Py (list (result B)) :=
  for_each (fun q => capture (task q)) batch.

Definition process_poll_questions (questions : list Question.t) (context : option string)
  : Py (list Answer.t) :=
  for_fold (fun answers i =>
      let batch := slice i (i + batch_size) questions in
      batch_answers ← gather (fun q => generate_answer q context) batch;
      answers ←
        for_fold (fun answers '(j, result) =>
            result ←
              match result with
              | Raise _ => index batch j ≫= _generate_fallback_answer
              | Ok answer => mret answer
              end;
            question ← index batch j;
            result ← make_answer_human_like result question;
            mret (answers ++ [result])%list)
          answers (enumerate batch_answers);
      (if (i + batch_size <? length questions)%nat then
         random_uniform 1 3 ≫= sleep
       else mret tt);;
      mret answers)
    [] (range_step (length questions) batch_size).

Module Stats.
Record t := mk {
  total_requests : Z;
  total_cost : Q;
  avg_cost_per_request : Q;
  openai_available : bool;
  anthropic_available : bool
}.
End Stats.

(** [round(x, ndigits)]: to the nearest multiple of [10^-ndigits], a tie
    going to the even one *)
Definition py_round (x : Q) (ndigits : nat) : Q :=
  let scaled := (x * inject_Z (10 ^ Z.of_nat ndigits))%Q in
  let lo := Qfloor scaled in
  let rest := (scaled - inject_Z lo)%Q in
  let n :=
    if Qltb rest (1 # 2) then lo
    else if Qltb (1 # 2) rest then (lo + 1)%Z
    else if Z.even lo then lo else (lo + 1)%Z in
  n # Json.pow10 ndigits.

(** [x / d] for a float [x] and an int [d] *)
Definition py_truediv (x : Q) (d : Z) : Py Q :=
  if (d =? 0)%Z then raise ZeroDivisionError else mret (x / inject_Z d)%Q.

Definition get_stats : Py Stats.t :=
  request_count ← get request_count;
  total_cost ← get total_cost;
  avg ← py_truediv total_cost (Z.max 1 request_count);
  openai ← get openai_client;
  anthropic ← get anthropic_client;
  mret (Stats.mk request_count (py_round total_cost 4) (py_round avg 4) openai anthropic).

Definition reset_stats : Py unit :=
  modify (fun w => set_request_count 0 (set_total_cost 0 w)).

(** ** Running the service on concrete worlds *)

Definition world0 (openai anthropic : bool)
    (rand : nat -> N) (provider : nat -> provider_reply) : World :=
  mkWorld openai anthropic 0 0 rand 0 provider 0 [].

Definition yes_no_question : Question.t :=
  Question.mk 1 "Do you like pizza?" "yes-no"
    [ {[ "value" := "yes"; "label" := "Yes" ]}; {[ "value" := "no"; "label" := "No" ]} ] true.

Definition rating_question : Question.t :=
  Question.mk 2 "How was it?" "rating" [] true.

Definition text_question : Question.t :=
  Question.mk 3 "Any comments?" "text" [] true.

(** a provider that fails once and then answers in the requested format *)
Definition flaky_provider (n : nat) : provider_reply :=
  match n with
  | O => CallRaises
  | _ => Content (Str.quoted "{'answer': 'yes', 'confidence': 0.9, 'reasoning': 'sure'}")
  end.

(** no client configured; every raw draw is 2 *)
Definition offline_world : World :=
  world0 false false (fun _ => 2%N) (fun _ => CallRaises).

(** an answer a provider may give with little confidence *)
Definition low_answer : Answer.t := Answer.mk 1 (PyStr "yes") (1 # 10) (PyStr "not sure").

(** an answer as the free-text path produces it *)
Definition text_answer : Answer.t :=
  Answer.mk 3 (PyStr "Fine by me") (7 # 10) (PyStr "Parsed from text response").

(** a service that paid for one call whose envelope was unusable: a cost
    but no counted request *)
Definition charged_world : World :=
  set_total_cost (2 # 1000) offline_world.

(** a reply in the requested format whose confidence is a word *)
Definition vague_reply : string :=
  Str.quoted "{'answer': 'yes', 'confidence': 'high'}".

(** the inside of a reply in the requested format *)
Definition exact_body : string :=
  Str.quoted "'answer': 'yes', 'confidence': 0.8, 'reasoning': 'ok'".

(** a reply that wraps an object without confidence in prose *)
Definition chatty_reply : string :=
  "Sure! " +:+ Str.quoted "{'answer': 'blue'}" +:+ " Hope that helps.".

(** ** Vocabulary of the statements *)

(** Running [m] in [w] ends in a value and a world that satisfy [P], or
    in an exception and a world that satisfy [E]. *)
Definition wp {A} (m : Py A) (w : World)
    (P : A -> World -> Prop) (E : exn -> World -> Prop) : Prop :=
  match m w with
  | (Ok a, w') => P a w'
  | (Raise e, w') => E e w'
  end.

(** [m] returns normally from [w], with [P]. *)
Definition returns {A} (m : Py A) (w : World) (P : A -> World -> Prop) : Prop :=
  wp m w P (fun _ _ => False).

(** [token] occurs in [text], letter case aside. *)
Definition mentions (token text : string) : Prop :=
  exists pre post, Str.lower text = pre +:+ token +:+ post.

Definition affirmative_tokens : list string := ["yes"; "true"; "agree"; "correct"].
Definition negative_tokens : list string := ["no"; "false"; "disagree"; "incorrect"].

(** [text] mentions one of [tokens]. *)
Definition mentions_any (tokens : list string) (text : string) : Prop :=
  exists token, In token tokens /\ mentions token text.

(** every character of [s] satisfies [p] *)
Fixpoint all_chars (p : ascii -> bool) (s : string) : bool :=
  match s with
  | EmptyString => true
  | String c r => p c && all_chars p r
  end.

(** a non-empty word without whitespace *)
Definition solid (s : string) : bool :=
  negb (String.eqb s "") && all_chars (fun c => negb (Str.is_space c)) s.

(** a text of ASCII characters only *)
Definition ascii_only (s : string) : bool :=
  all_chars (fun c => (Str.code c <? 128)%nat) s.

(** a text without any digit *)
Definition digitless (s : string) : bool :=
  all_chars (fun c => negb (Str.is_digit c)) s.

(** a value [float] does not accept: no number at all, an [int] beyond
    the float range, or an ASCII text with no digit that names neither
    an infinity nor a nan *)
Definition not_a_float (v : pyval) : Prop :=
  match v with
  | PyNum _ | PyBool _ | PyNonFinite _ => False
  | PyInt z => (float_int_bound <= Z.abs z)%Z
  | PyStr s =>
      ascii_only s = true /\ digitless s = true
      /\ Str.contains "inf" (Str.lower s) = false
      /\ Str.contains "nan" (Str.lower s) = false
  | PyNone | PyList _ | PyDict _ => True
  end.

(** a number [float] converts, and the float it gives: a float within
    the float range, or an [int] within it *)
Definition float_value (v : pyval) (c : Q) : Prop :=
  (v = PyNum c /\ (- inject_Z float_int_bound < c < inject_Z float_int_bound)%Q)
  \/ exists z, v = PyInt z /\ (Z.abs z < float_int_bound)%Z /\ c = inject_Z z.

(** [answer] is an answer to [question] *)
Definition answers_to (question : Question.t) (answer : Answer.t) : Prop :=
  Answer.question_id answer = Question.id question.

(** what the Fallback Synthesizer always sets *)
Definition is_fallback (answer : Answer.t) : Prop :=
  Answer.confidence answer = 3 # 10
  /\ Answer.reasoning answer = PyStr "Fallback answer due to API failure".

(** what one run of the Humanizer does to an answer: the identifier and
    the reasoning stay, and the confidence loses some [delta] in
    [0.1, 0.3] but is not left below the floor 0.2 *)
Definition humanized (answer answer' : Answer.t) : Prop :=
  Answer.question_id answer' = Answer.question_id answer
  /\ Answer.reasoning answer' = Answer.reasoning answer
  /\ exists delta, (1 # 10 <= delta <= 3 # 10)%Q
       /\ Answer.confidence answer'
          = py_max (2 # 10) (Answer.confidence answer - delta).

(** OpenAI configured, the provider failing once; every raw draw is 2 *)
Definition flaky_world : World :=
  world0 true false (fun _ => 2%N) flaky_provider.

(** the outcome of a task is an answer to [question], if it is an answer *)
Definition outcome_for (question : Question.t) (outcome : result Answer.t) : Prop :=
  match outcome with
  | Ok answer => answers_to question answer
  | Raise _ => True
  end.

(** Whatever [m] does from a world, by returning or by raising, the world
    it ends in is related to the one it started from by [R]. *)
Definition frames {A} (R : World -> World -> Prop) (m : Py A) : Prop :=
  forall w, wp m w (fun _ w' => R w w') (fun _ w' => R w w').

(** nothing happened to the world but some draws from the random module *)
Definition draws_only (w w' : World) : Prop :=
  w' = set_rand_pos (rand_pos w') w /\ (rand_pos w <= rand_pos w')%nat.

(** the numerals of the rating scale *)
Definition rating_scale : list string :=
  ["1"; "2"; "3"; "4"; "5"; "6"; "7"; "8"; "9"; "10"].

(** the moderate ratings *)
Definition moderate_ratings : list string := ["3"; "4"; "5"; "6"; "7"].

(** a choice question whose second option has no label *)
Definition colour_question : Question.t :=
  Question.mk 4 "What is your favorite color?" "single-choice"
    [ {[ "value" := "red"; "label" := "Red" ]};
      {[ "value" := "blue" ]};
      {[ "value" := "green"; "label" := "Green" ]} ] true.

(** the text an option is looked for by: its label, or else its value,
    in lower case *)
Definition option_text (option : gmap string string) : string :=
  Str.lower (dict_get option "label" (dict_get option "value" "")).

(** what stands for an option in an answer: its value, or else its label *)
Definition option_value (option : gmap string string) : string :=
  dict_get option "value" (dict_get option "label" "").

(** a reply with two objects: its braces span is not one JSON document *)
Definition two_objects_reply : string :=
  Str.quoted "{'answer': 'yes'} or {'answer': 'no'}".

(** the replies the provider gives to the next [n] calls *)
Definition replies (w : World) (n : nat) : list provider_reply :=
  List.map (provider_tape w) (seq (provider_calls w) n).

Definition is_content (r : provider_reply) : bool :=
  match r with
  | Content _ => true
  | _ => false
  end.

(** how many of the replies carry content *)
Definition answered (rs : list provider_reply) : Z :=
  Z.of_nat (length (List.filter is_content rs)).

(** the running cost after the replies, at [c] per call that did not raise *)
Definition charge (c : Q) (cost : Q) (rs : list provider_reply) : Q :=
  fold_left (fun acc r => match r with CallRaises => acc | _ => (acc + c)%Q end) rs cost.

(** the estimated cost of a call to the client the service selects *)
Definition call_cost (w : World) : Q :=
  if openai_client w then 2 # 1000 else 1 # 1000.

(** a client is configured *)
Definition online (w : World) : bool := openai_client w || anthropic_client w.

(** From [w] to [w'] the service made [calls] provider calls and slept
    [pauses] times, each time between 1 and 3: the configuration and the
    tapes are as they were, a request is counted for each reply with
    content, and each call that did not raise is charged. *)
Definition run (calls pauses : nat) (w w' : World) : Prop :=
  openai_client w' = openai_client w
  /\ anthropic_client w' = anthropic_client w
  /\ rand_tape w' = rand_tape w
  /\ provider_tape w' = provider_tape w
  /\ provider_calls w' = (provider_calls w + calls)%nat
  /\ request_count w' = (request_count w + answered (replies w calls))%Z
  /\ total_cost w' = charge (call_cost w) (total_cost w) (replies w calls)
  /\ exists delays,
       slept w' = (delays ++ slept w)%list
       /\ length delays = pauses
       /\ Forall (fun d => (1 <= d <= 3)%Q) delays.

(** what the orchestrator hands out for a question: an answer to it with
    a confidence of at least 0.2; with no client, the humanized fallback *)
Definition delivered (w : World) (question : Question.t) (answer : Answer.t) : Prop :=
  answers_to question answer
  /\ (2 # 10 <= Answer.confidence answer)%Q
  /\ (online w = false ->
      Answer.confidence answer = 2 # 10
      /\ Answer.reasoning answer = PyStr "Fallback answer due to API failure").

(** what gather keeps for a question: an answer to it, the fallback one
    when no client is configured *)
Definition generated (w : World) (question : Question.t) (outcome : result Answer.t)
  : Prop :=
  exists answer, outcome = Ok answer
    /\ answers_to question answer
    /\ (online w = false -> is_fallback answer).

(** the opening brackets of [s]: their number bounds how deep the JSON
    values of [s] nest *)
Fixpoint brackets (s : string) : nat :=
  match s with
  | EmptyString => 0
  | String c r =>
      ((if Ascii.eqb c "{" || Ascii.eqb c "[" then 1 else 0) + brackets r)%nat
  end.

(** a text whose JSON values nest far less deep than the recursion limit
    of the interpreter allows *)
Definition shallow (s : string) : Prop := (brackets s <= 100)%nat.

(** [c * n] *)
Fixpoint times (c : ascii) (n : nat) : string :=
  match n with
  | O => EmptyString
  | S n => String c (times c n)
  end.

(** the inside of a reply in the requested format whose confidence is the
    integer ten to the power 400 *)
Definition huge_confidence_body : string :=
  Str.quoted "'answer': 'yes', 'confidence': 1" +:+ times "0" 400
  +:+ Str.quoted ", 'reasoning': 'ok'".

(** ** The library functions and the service on sample inputs *)

Example loads_object :
  Json.loads (Str.quoted "{'answer': 'yes', 'confidence': 0.8, 'reasoning': 'ok'}")
  = Some (PyDict (<["answer" := PyStr "yes"]>
                 (<["confidence" := PyNum (8 # 10)]>
                 (<["reasoning" := PyStr "ok"]> ∅)))).
Proof. vm_compute. reflexivity. Qed.

Example loads_rejects_two_objects :
  Json.loads (Str.quoted "{'a': 1} and {'b': [true, null, -2.50e1]}") = None.
Proof. vm_compute. reflexivity. Qed.

Example float_of_str_ex :
  float_of_str " 0.85 " = Some (85 # 100) /\ float_of_str "high" = None.
Proof. vm_compute. split; reflexivity. Qed.

Example search_braces_prose :
  Re.search_braces "Sure: {a} and {b}, ok" = Some "{a} and {b}"
  /\ Re.search_braces "} then {" = None.
Proof. split; reflexivity. Qed.

Example first_rating_ex :
  Re.first_rating "I'd rate it 8 out of 10" = Some "8"
  /\ Re.first_rating "a1 or 10." = Some "10"
  /\ Re.first_rating "about 100" = None.
Proof. repeat split; reflexivity. Qed.

Example extract_spec_scenario :
  fst (_parse_llm_response yes_no_question "I believe no, that seems right."
         (world0 true false (fun _ => 0%N) (fun _ => CallRaises)))
  = Ok (Answer.mk 1 (PyStr "no") (7 # 10) (PyStr "Parsed from text response")).
Proof. vm_compute. reflexivity. Qed.

Example extract_rating :
  fst (_extract_answer_from_text rating_question "I'd rate it 8 out of 10"
         (world0 true false (fun _ => 0%N) (fun _ => CallRaises)))
  = Ok "8".
Proof. vm_compute. reflexivity. Qed.

Example range_step_7 : range_step 7 3 = [0; 3; 6]%nat /\ range_step 6 3 = [0; 3]%nat.
Proof. split; reflexivity. Qed.

Example py_round_ex :
  py_round (2 # 1000) 4 = 20 # 10000 /\ py_round (12345 # 100000) 4 = 1234 # 10000.
Proof. split; vm_compute; reflexivity. Qed.

Example wait_exponential_1_4_10 :
  List.map (wait_exponential 1 4 10) [1; 2; 3; 4; 5]%nat = [4; 4; 4; 8; 10]%Z.
Proof. reflexivity. Qed.

(** the decorator does call again when the decorated function raises *)
Example retry_calls_again :
  let '(outcome, w') :=
    retry 3 (wait_exponential 1 4 10) (api_call ≫= first_content) flaky_world in
  outcome = Ok (Str.quoted "{'answer': 'yes', 'confidence': 0.9, 'reasoning': 'sure'}")
  /\ provider_calls w' = 2%nat
  /\ slept w' = [inject_Z 4].
Proof. vm_compute. repeat split; reflexivity. Qed.

(** and gives up with [RetryError] after the third failure *)
Example retry_gives_up :
  let '(outcome, w') :=
    retry 3 (wait_exponential 1 4 10) (api_call ≫= first_content) offline_world in
  outcome = Raise RetryError
  /\ provider_calls w' = 3%nat
  /\ slept w' = [inject_Z 4; inject_Z 4].
Proof. vm_compute. repeat split; reflexivity. Qed.

(** ** The program logic of [Py] *)

Section Logic.
Context {A B : Type}.
Implicit Types (P : A -> World -> Prop) (E : exn -> World -> Prop).

Lemma wp_ret (a : A) w P E : P a w -> wp (mret a) w P E.
Proof. intros H. exact H. Qed.

Lemma wp_raise e w P E : E e w -> wp (raise e : Py A) w P E.
Proof. intros H. exact H. Qed.

Lemma wp_bind (m : Py A) (f : A -> Py B) w (Q : B -> World -> Prop) E :
  wp m w (fun a w' => wp (f a) w' Q E) E -> wp (m ≫= f) w Q E.
Proof.
  unfold wp, mbind, Py_bind. destruct (m w) as [[a | e] w']; auto.
Qed.

Lemma wp_try_except (body : Py A) (handler : exn -> Py A) w P E :
  wp body w P (fun e w' => wp (handler e) w' P E) ->
  wp (try_except body handler) w P E.
Proof.
  unfold wp, try_except. destruct (body w) as [[a | e] w']; auto.
Qed.

Lemma wp_mono (m : Py A) w P P' E E' :
  wp m w P E ->
  (forall a w', P a w' -> P' a w') ->
  (forall e w', E e w' -> E' e w') ->
  wp m w P' E'.
Proof.
  unfold wp. destruct (m w) as [[a | e] w']; auto.
Qed.

Lemma wp_get (f : World -> A) w P E : P (f w) w -> wp (get f) w P E.
Proof. intros H. exact H. Qed.

Lemma returns_eq (m : Py A) w P :
  returns m w P <-> exists a w', m w = (Ok a, w') /\ P a w'.
Proof.
  unfold returns, wp. destruct (m w) as [[a | e] w']; split.
  - eauto.
  - intros (a' & w'' & Heq & HP). congruence.
  - intros [].
  - intros (a' & w'' & Heq & HP). congruence.
Qed.

End Logic.

Lemma wp_modify (f : World -> World) w (P : unit -> World -> Prop) E :
  P tt (f w) -> wp (modify f) w P E.
Proof. intros H. exact H. Qed.

Lemma returns_mono {A} (m : Py A) w (P P' : A -> World -> Prop) :
  returns m w P -> (forall a w', P a w' -> P' a w') -> returns m w P'.
Proof. intros H HP. eapply wp_mono; eauto. Qed.

(** continue after a computation whose outcome is known: the known
    postcondition has to give the wanted one *)
Tactic Notation "wp_after" tactic3(known) := eapply wp_mono; [known | | auto].

(** a computation that returns is not retried *)
Lemma retrying_returns {A} more attempt wait (f : Py A) w (P : A -> World -> Prop) :
  returns f w P -> retrying more attempt wait f w = f w.
Proof.
  unfold returns, wp. destruct more; simpl; unfold try_except;
    destruct (f w) as [[a | e] w']; intros H; solve [reflexivity | destruct H].
Qed.

(** ** The [random] module *)

Lemma wp_draw w (P : N -> World -> Prop) E :
  P (rand_tape w (rand_pos w)) (set_rand_pos (S (rand_pos w)) w) -> wp draw w P E.
Proof. intros H. exact H. Qed.

Lemma wp_index {A} (l : list A) i x w (P : A -> World -> Prop) E :
  l !! i = Some x -> P x w -> wp (index l i) w P E.
Proof. intros Hl HP. unfold index. rewrite Hl. exact HP. Qed.

Lemma random_choice_returns {A} (l : list A) w :
  l <> [] -> returns (random_choice l) w (fun x _ => In x l).
Proof.
  intros Hne. destruct l as [| x0 l']; [congruence |].
  unfold random_choice. apply wp_bind, wp_draw.
  set (l := x0 :: l').
  assert (Hlt : (N.to_nat (rand_tape w (rand_pos w)) mod length l < length l)%nat)
    by (apply Nat.mod_upper_bound; discriminate).
  destruct (lookup_lt_is_Some_2 l _ Hlt) as [x Hx].
  eapply wp_index; [exact Hx |].
  apply list_elem_of_In. eapply list_elem_of_lookup_2; eauto.
Qed.

Lemma random_randint_returns a b w :
  (a <= b)%Z -> returns (random_randint a b) w (fun n _ => (a <= n <= b)%Z).
Proof.
  intros Hab. unfold random_randint.
  destruct (Z.ltb_spec b a) as [Hlt | _]; [lia |].
  apply wp_bind, wp_draw, wp_ret.
  pose proof (Z.mod_pos_bound (Z.of_N (rand_tape w (rand_pos w))) (b - a + 1)).
  lia.
Qed.

Lemma random_random_returns w :
  returns random_random w (fun r _ => (0 <= r < 1)%Q).
Proof.
  unfold random_random. apply wp_bind, wp_draw, wp_ret.
  assert (Hlt : (rand_tape w (rand_pos w) mod 2 ^ 53 < 2 ^ 53)%N)
    by (apply N.mod_upper_bound; discriminate).
  apply N2Z.inj_lt in Hlt.
  change (Z.of_N (2 ^ 53)) with (Z.pos (2 ^ 53)) in Hlt.
  pose proof (N2Z.is_nonneg (rand_tape w (rand_pos w) mod 2 ^ 53)) as Hge.
  unfold Qle, Qlt; simpl.
  generalize dependent (Z.of_N (rand_tape w (rand_pos w) mod 2 ^ 53)).
  generalize (Z.pos (2 ^ 53)). intros. lia.
Qed.

Lemma random_uniform_returns a b w :
  (a <= b)%Q -> returns (random_uniform a b) w (fun u _ => (a <= u <= b)%Q).
Proof.
  intros Hab. unfold random_uniform. apply wp_bind.
  wp_after (apply random_random_returns).
  intros r w' [H0 H1]. apply wp_ret.
  nra.
Qed.

(** ** The Fallback Synthesizer *)

Lemma random_option_value_returns question w :
  Question.options question <> [] ->
  returns (random_option_value question) w (fun _ _ => True).
Proof.
  intros Hne. unfold random_option_value. apply wp_bind.
  wp_after (apply random_choice_returns, Hne).
  intros option w' _. apply wp_bind.
  destruct (Question.options question) as [| first rest] eqn:Hopts; [congruence |].
  eapply wp_index; [reflexivity |]. apply wp_ret. exact I.
Qed.

Lemma is_choice_with_options_nonempty question :
  is_choice_with_options question = true -> Question.options question <> [].
Proof.
  unfold is_choice_with_options. intros H Hnil. rewrite Hnil in H.
  rewrite andb_comm in H. discriminate H.
Qed.

Lemma fallback_returns question w :
  returns (_generate_fallback_answer question) w
          (fun answer _ => answers_to question answer /\ is_fallback answer).
Proof.
  unfold _generate_fallback_answer. apply wp_bind.
  assert (Hdone : forall (value : string) (w' : World),
             wp (mret (Answer.mk (Question.id question) (PyStr value) (3 # 10)
                                 (PyStr "Fallback answer due to API failure"))) w'
                (fun answer _ => answers_to question answer /\ is_fallback answer)
                (fun _ _ => False)).
  { intros value w'. apply wp_ret. repeat split. }
  destruct (String.eqb (Question.type question) "yes-no").
  { wp_after (apply random_choice_returns; discriminate).
    intros; apply Hdone. }
  destruct (is_choice_with_options question) eqn:Hchoice.
  { wp_after (apply random_option_value_returns, is_choice_with_options_nonempty, Hchoice).
    intros; apply Hdone. }
  destruct (String.eqb (Question.type question) "rating").
  { apply wp_bind.
    wp_after (apply (random_randint_returns 3 7); lia).
    intros n w' _. apply wp_ret, Hdone. }
  wp_after (apply random_choice_returns; discriminate).
  intros; apply Hdone.
Qed.

(** C9: for every Question, of any type and with any options list (an
    empty one included), the Fallback Synthesizer returns normally, and
    the Answer it returns has confidence exactly 0.3 and the reasoning
    "Fallback answer due to API failure". *)
Theorem fallback_never_raises (question : Question.t) (w : World) :
  exists answer w',
    _generate_fallback_answer question w = (Ok answer, w')
    /\ Answer.question_id answer = Question.id question
    /\ Answer.confidence answer = 3 # 10
    /\ Answer.reasoning answer = PyStr "Fallback answer due to API failure".
Proof.
  destruct (proj1 (returns_eq _ _ _) (fallback_returns question w))
    as (answer & w' & Hrun & Hid & Hconf & Hwhy).
  exists answer, w'. auto.
Qed.

(** ** generate_answer *)

Lemma generate_answer_no_clients question context w :
  openai_client w = false -> anthropic_client w = false ->
  generate_answer_wrapped question context w = _generate_fallback_answer question w.
Proof.
  intros Ho Ha. unfold generate_answer_wrapped, try_except, mbind, Py_bind, get, raise.
  rewrite Ho, Ha. reflexivity.
Qed.

(** C8: when neither client is configured, generate_answer gives, for
    every Question, the Fallback Synthesizer's answer: reasoning
    "Fallback answer due to API failure" and confidence 0.3. *)
Theorem no_client_gives_fallback (question : Question.t) (context : option string)
    (w : World) :
  openai_client w = false -> anthropic_client w = false ->
  generate_answer question context w = _generate_fallback_answer question w
  /\ exists answer w',
       generate_answer question context w = (Ok answer, w')
       /\ Answer.question_id answer = Question.id question
       /\ Answer.confidence answer = 3 # 10
       /\ Answer.reasoning answer = PyStr "Fallback answer due to API failure".
Proof.
  intros Ho Ha.
  pose proof (fallback_returns question w) as Hfb.
  assert (Heq : generate_answer question context w = _generate_fallback_answer question w).
  { unfold generate_answer, retry.
    rewrite (retrying_returns _ _ _ _ w
               (fun answer _ => answers_to question answer /\ is_fallback answer)).
    - apply generate_answer_no_clients; assumption.
    - unfold returns, wp. rewrite generate_answer_no_clients by assumption. exact Hfb. }
  split; [exact Heq |].
  destruct (proj1 (returns_eq _ _ _) Hfb) as (answer & w' & Hrun & Hid & Hconf & Hwhy).
  exists answer, w'. rewrite Heq. auto.
Qed.

Lemma no_client_gives_fallback_witness :
  openai_client offline_world = false
  /\ anthropic_client offline_world = false
  /\ generate_answer rating_question None offline_world
     = _generate_fallback_answer rating_question offline_world
  /\ exists answer w',
       generate_answer rating_question None offline_world = (Ok answer, w')
       /\ Answer.question_id answer = Question.id rating_question
       /\ Answer.confidence answer = 3 # 10
       /\ Answer.reasoning answer = PyStr "Fallback answer due to API failure".
Proof.
  split; [reflexivity |]. split; [reflexivity |].
  apply (no_client_gives_fallback rating_question None offline_world); reflexivity.
Defined.

(** ** The Humanizer *)

Lemma Qltb_lt x y : Qltb x y = true <-> (x < y)%Q.
Proof.
  unfold Qltb. rewrite negb_true_iff, <- not_true_iff_false, Qle_bool_iff.
  split; [apply Qnot_le_lt | apply Qlt_not_le].
Qed.

Lemma py_max_cases a b :
  ((a < b)%Q /\ py_max a b = b) \/ ((b <= a)%Q /\ py_max a b = a).
Proof.
  unfold py_max. destruct (Qltb a b) eqn:Hlt.
  - left. split; [apply Qltb_lt, Hlt | reflexivity].
  - right. split; [| reflexivity].
    apply Qnot_lt_le. intros H. apply Qltb_lt in H. congruence.
Qed.

Lemma humanizer_returns answer question w :
  returns (make_answer_human_like answer question) w
          (fun answer' _ => humanized answer answer').
Proof.
  unfold make_answer_human_like. apply wp_bind.
  set (keeps := fun (a : Answer.t) (_ : World) =>
         Answer.question_id a = Answer.question_id answer
         /\ Answer.reasoning a = Answer.reasoning answer
         /\ Answer.confidence a = Answer.confidence answer).
  assert (Hrest : forall a w', keeps a w' ->
            wp (delta ← random_uniform (1 # 10) (3 # 10);
                mret (Answer.with_confidence
                        (py_max (2 # 10) (Answer.confidence a - delta)) a)) w'
               (fun answer' _ => humanized answer answer') (fun _ _ => False)).
  { intros a w' (Hid & Hwhy & Hconf). apply wp_bind.
    wp_after (apply random_uniform_returns; lra).
    intros delta w'' Hdelta. apply wp_ret.
    split; [exact Hid |]. split; [exact Hwhy |].
    exists delta. split; [exact Hdelta |]. simpl. rewrite Hconf. reflexivity. }
  assert (Hkeep : wp (mret answer) w keeps (fun _ _ => False))
    by (apply wp_ret; repeat split).
  destruct (Answer.value answer) as [| | | | | value | |] eqn:Hvalue;
    try (eapply wp_mono; [exact Hkeep | exact Hrest | auto]).
  destruct (String.eqb (Question.type question) "text");
    [| eapply wp_mono; [exact Hkeep | exact Hrest | auto]].
  apply wp_bind.
  wp_after (apply random_random_returns).
  intros r1 w1 _. apply wp_bind.
  apply wp_mono with (P := fun _ _ => True) (E := fun _ _ => False); [| | auto].
  { destruct (Qltb r1 (3 # 10)); [| apply wp_ret; exact I].
    apply wp_bind.
    wp_after (apply random_choice_returns; discriminate).
    intros; apply wp_ret; exact I. }
  intros value1 w2 _. apply wp_bind.
  wp_after (apply random_random_returns).
  intros r2 w3 _. apply wp_bind.
  apply wp_mono with (P := fun _ _ => True) (E := fun _ _ => False); [| | auto].
  { destruct (Qltb r2 (2 # 10)); [| apply wp_ret; exact I].
    apply wp_bind.
    wp_after (apply random_choice_returns; discriminate).
    intros; apply wp_ret; exact I. }
  intros value2 w4 _. apply wp_ret. apply Hrest. repeat split.
Qed.

(** C2: for every Answer whose confidence is in [0, 1], one run of
    make_answer_human_like returns an Answer whose confidence lies in
    [0.2, 1.0]. *)
Theorem humanizer_confidence_range (answer : Answer.t) (question : Question.t)
    (w : World) :
  (0 <= Answer.confidence answer <= 1)%Q ->
  exists answer' w',
    make_answer_human_like answer question w = (Ok answer', w')
    /\ (2 # 10 <= Answer.confidence answer' <= 1)%Q.
Proof.
  intros [Hlo Hhi].
  destruct (proj1 (returns_eq _ _ _) (humanizer_returns answer question w))
    as (answer' & w' & Hrun & _ & _ & delta & [Hd1 Hd2] & Hconf).
  exists answer', w'. split; [exact Hrun |]. rewrite Hconf.
  destruct (py_max_cases (2 # 10) (Answer.confidence answer - delta))
    as [[Hlt ->] | [Hle ->]]; lra.
Qed.

Lemma humanizer_confidence_range_witness :
  (0 <= Answer.confidence text_answer <= 1)%Q
  /\ exists answer' w',
       make_answer_human_like text_answer text_question offline_world = (Ok answer', w')
       /\ (2 # 10 <= Answer.confidence answer' <= 1)%Q.
Proof.
  split.
  - simpl. lra.
  - apply (humanizer_confidence_range text_answer text_question offline_world).
    simpl. lra.
Defined.

(** a confidence below the floor goes up: the Humanizer turns 0.1 into
    0.2 *)
Lemma humanizer_raises_low_confidence :
  exists answer' w',
    make_answer_human_like low_answer yes_no_question offline_world = (Ok answer', w')
    /\ Answer.confidence answer' = 2 # 10
    /\ ~ (Answer.confidence answer' <= Answer.confidence low_answer)%Q.
Proof.
  eexists _, _. split; [vm_compute; reflexivity |]. simpl. split; [reflexivity | lra].
Qed.

(** C3, amended: for every input Answer whose confidence is at least the
    floor 0.2, the confidence after make_answer_human_like is less than
    or equal to the confidence before it and not below 0.2; an input
    confidence below 0.2 is raised to exactly 0.2. *)
Theorem humanizer_never_increases_above_floor (answer : Answer.t)
    (question : Question.t) (w : World) :
  exists answer' w',
    make_answer_human_like answer question w = (Ok answer', w')
    /\ ((2 # 10 <= Answer.confidence answer)%Q ->
        (2 # 10 <= Answer.confidence answer' <= Answer.confidence answer)%Q)
    /\ ((Answer.confidence answer < 2 # 10)%Q ->
        Answer.confidence answer' = 2 # 10).
Proof.
  destruct (proj1 (returns_eq _ _ _) (humanizer_returns answer question w))
    as (answer' & w' & Hrun & _ & _ & delta & [Hd1 Hd2] & Hconf).
  exists answer', w'. split; [exact Hrun |]. rewrite Hconf.
  destruct (py_max_cases (2 # 10) (Answer.confidence answer - delta))
    as [[Hlt ->] | [Hle ->]]; split; intros H; solve [lra | reflexivity].
Qed.

Lemma humanizer_never_increases_above_floor_witness :
  (2 # 10 <= Answer.confidence text_answer)%Q
  /\ exists answer' w',
       make_answer_human_like text_answer text_question offline_world = (Ok answer', w')
       /\ (2 # 10 <= Answer.confidence answer' <= Answer.confidence text_answer)%Q.
Proof.
  split.
  - simpl. lra.
  - destruct (humanizer_never_increases_above_floor text_answer text_question
                offline_world) as (answer' & w' & Hrun & Hkeep & _).
    exists answer', w'. split; [exact Hrun |]. apply Hkeep. simpl. lra.
Defined.

(** ** Statistics *)

Lemma Qdiv_1_r (x : Q) : (x / inject_Z 1)%Q = x.
Proof.
  destruct x as [n d]. unfold Qdiv, Qmult, Qinv, inject_Z. simpl.
  rewrite Z.mul_1_r, Pos.mul_1_r. reflexivity.
Qed.

Lemma py_truediv_returns x d w :
  d <> 0%Z -> py_truediv x d w = (Ok (x / inject_Z d)%Q, w).
Proof.
  intros Hd. unfold py_truediv. destruct (Z.eqb_spec d 0); [contradiction | reflexivity].
Qed.

(** C10: get_stats never divides by zero: the divisor is
    max(1, request_count), so get_stats returns for every state of the
    service, avg_cost_per_request is round(total_cost / max(1,
    request_count), 4), and with no request counted it equals
    round(total_cost, 4), the reported total_cost. *)
Theorem get_stats_never_divides_by_zero (w : World) :
  exists stats,
    get_stats w = (Ok stats, w)
    /\ Z.max 1 (request_count w) <> 0%Z
    /\ Stats.total_requests stats = request_count w
    /\ Stats.avg_cost_per_request stats
       = py_round (total_cost w / inject_Z (Z.max 1 (request_count w))) 4
    /\ (request_count w = 0%Z ->
        Stats.avg_cost_per_request stats = py_round (total_cost w) 4
        /\ Stats.avg_cost_per_request stats = Stats.total_cost stats).
Proof.
  assert (Hmax : Z.max 1 (request_count w) <> 0%Z) by lia.
  eexists. split.
  { unfold get_stats, mbind, Py_bind, get.
    rewrite (py_truediv_returns _ _ _ Hmax). reflexivity. }
  split; [exact Hmax |]. simpl. split; [reflexivity |]. split; [reflexivity |].
  intros Hzero. rewrite Hzero. change (Z.max 1 0) with 1%Z. rewrite Qdiv_1_r. auto.
Qed.

Lemma get_stats_never_divides_by_zero_witness :
  request_count charged_world = 0%Z
  /\ exists stats,
       get_stats charged_world = (Ok stats, charged_world)
       /\ Stats.avg_cost_per_request stats = py_round (total_cost charged_world) 4.
Proof.
  split; [reflexivity |].
  destruct (get_stats_never_divides_by_zero charged_world)
    as (stats & Hrun & _ & _ & _ & Hzero).
  exists stats. split; [exact Hrun |]. apply Hzero. reflexivity.
Defined.

Example get_stats_charged :
  fst (get_stats charged_world) = Ok (Stats.mk 0 (20 # 10000) (20 # 10000) false false).
Proof. vm_compute. reflexivity. Qed.

(** ** Strings: substrings, case folding and stripping *)

Lemma starts_with_spec p s :
  Str.starts_with p s = true <-> exists post, s = p +:+ post.
Proof.
  revert s. induction p as [| a p IH]; intros s; simpl.
  - split; [intros _; exists s; reflexivity | reflexivity].
  - destruct s as [| b s]; simpl.
    + split; [discriminate | intros [post H]; discriminate].
    + rewrite andb_true_iff, Ascii.eqb_eq, IH. split.
      * intros [-> [post ->]]. exists post. reflexivity.
      * intros [post H]. injection H as -> ->. eauto.
Qed.

Lemma contains_spec needle hay :
  Str.contains needle hay = true <-> exists pre post, hay = pre +:+ needle +:+ post.
Proof.
  induction hay as [| c hay IH]; simpl; rewrite orb_true_iff, starts_with_spec.
  - split.
    + intros [[post H] | H]; [| discriminate]. exists "", post. exact H.
    + intros (pre & post & H). left. destruct pre; [eauto | discriminate].
  - rewrite IH. split.
    + intros [[post H] | (pre & post & H)].
      * exists "", post. exact H.
      * exists (String c pre), post. simpl. rewrite H. reflexivity.
    + intros (pre & post & H). destruct pre as [| c' pre]; simpl in H.
      * left. eauto.
      * right. injection H as -> ->. eauto.
Qed.

Lemma is_space_lower_char c : Str.is_space (Str.lower_char c) = Str.is_space c.
Proof. destruct c as [[] [] [] [] [] [] [] []]; reflexivity. Qed.

Lemma lower_lstrip s : Str.lower (Str.lstrip s) = Str.lstrip (Str.lower s).
Proof.
  induction s as [| c s IH]; simpl; [reflexivity |].
  rewrite is_space_lower_char. destruct (Str.is_space c); [exact IH | reflexivity].
Qed.

Lemma lower_rstrip s : Str.lower (Str.rstrip s) = Str.rstrip (Str.lower s).
Proof.
  induction s as [| c s IH]; simpl; [reflexivity |].
  rewrite <- IH, is_space_lower_char.
  destruct (Str.rstrip s); simpl; [destruct (Str.is_space c) |]; reflexivity.
Qed.

Lemma lower_strip s : Str.lower (Str.strip s) = Str.strip (Str.lower s).
Proof. unfold Str.strip. rewrite lower_rstrip, lower_lstrip. reflexivity. Qed.

Lemma solid_inv s :
  solid s = true ->
  exists c r, s = String c r /\ Str.is_space c = false
              /\ all_chars (fun c => negb (Str.is_space c)) r = true.
Proof.
  unfold solid. destruct s as [| c r]; simpl; [discriminate |].
  rewrite andb_true_iff, negb_true_iff. intros [Hc Hr]. eauto.
Qed.

Lemma contains_lstrip token s :
  solid token = true -> Str.contains token (Str.lstrip s) = Str.contains token s.
Proof.
  intros Hsolid. destruct (solid_inv _ Hsolid) as (t & ts & -> & Ht & _).
  induction s as [| c s IH]; [reflexivity |].
  cbn [Str.lstrip]. destruct (Str.is_space c) eqn:Hc; [| reflexivity].
  rewrite IH. cbn [Str.contains Str.starts_with].
  destruct (Ascii.eqb_spec t c) as [-> | _]; [congruence | reflexivity].
Qed.

Lemma starts_with_rstrip p s :
  all_chars (fun c => negb (Str.is_space c)) p = true ->
  Str.starts_with p (Str.rstrip s) = Str.starts_with p s.
Proof.
  revert p. induction s as [| c s IH]; intros p Hp; [reflexivity |].
  destruct p as [| a p]; [reflexivity |].
  simpl in Hp. apply andb_true_iff in Hp as [Ha Hp]. apply negb_true_iff in Ha.
  specialize (IH p Hp). cbn [Str.rstrip].
  destruct (Str.rstrip s) as [| c' s'] eqn:Hs.
  - destruct (Str.is_space c) eqn:Hc; cbn [Str.starts_with].
    + destruct (Ascii.eqb_spec a c) as [-> | _]; [congruence | reflexivity].
    + rewrite IH. reflexivity.
  - cbn [Str.starts_with]. rewrite IH. reflexivity.
Qed.

Lemma contains_rstrip token s :
  solid token = true -> Str.contains token (Str.rstrip s) = Str.contains token s.
Proof.
  intros Hsolid. destruct (solid_inv _ Hsolid) as (t & ts & -> & Ht & Hts).
  assert (Hall : all_chars (fun c => negb (Str.is_space c)) (String t ts) = true)
    by (simpl; rewrite Ht, Hts; reflexivity).
  induction s as [| c s IH]; [reflexivity |].
  pose proof (starts_with_rstrip (String t ts) (String c s) Hall) as Hhead.
  cbn [Str.rstrip] in *. destruct (Str.rstrip s) as [| c' s'] eqn:Hs.
  - destruct (Str.is_space c) eqn:Hc.
    + cbn [Str.contains]. rewrite <- IH, <- Hhead. reflexivity.
    + cbn [Str.contains]. rewrite <- IH, <- Hhead. reflexivity.
  - cbn [Str.contains]. rewrite <- IH, <- Hhead. reflexivity.
Qed.

Lemma contains_strip token s :
  solid token = true -> Str.contains token (Str.strip s) = Str.contains token s.
Proof.
  intros Hsolid. unfold Str.strip.
  rewrite contains_rstrip, contains_lstrip by exact Hsolid. reflexivity.
Qed.

(** the test the extraction makes on the stripped text is the mention of
    a token in the text as received *)
Lemma any_word_in_strip tokens text :
  forallb solid tokens = true ->
  any_word_in tokens (Str.strip text) = true <-> mentions_any tokens text.
Proof.
  intros Hsolid. unfold any_word_in, mentions_any, mentions.
  rewrite existsb_exists. rewrite forallb_forall in Hsolid.
  split; intros (token & Hin & H); exists token; (split; [exact Hin |]).
  - rewrite lower_strip, contains_strip in H by auto. apply contains_spec, H.
  - rewrite lower_strip, contains_strip by auto. apply contains_spec, H.
Qed.

(** ** Free-text extraction *)

(** X19: the scan of a yes-no reply, tokens read as substrings: for a
    yes-no Question and a raw text without braces, the parser takes the
    free-text path and the value extracted is "yes" when an affirmative
    token (yes/true/agree/correct, letter case aside) occurs in the
    text, "no" when a negative token (no/false/disagree/incorrect)
    occurs and no affirmative one, and otherwise what
    random.choice(['yes', 'no']) draws. *)
Theorem yes_no_free_text (question : Question.t) (raw : string) (w : World) :
  Question.type question = "yes-no" ->
  Str.has_char "{" raw = false ->
  Str.has_char "}" raw = false ->
  exists value w',
    _extract_answer_from_text question raw w = (Ok value, w')
    /\ _parse_llm_response question raw w
       = (Ok (Answer.mk (Question.id question) (PyStr value) (7 # 10)
                        (PyStr "Parsed from text response")), w')
    /\ (mentions_any affirmative_tokens raw -> value = "yes" /\ w' = w)
    /\ (~ mentions_any affirmative_tokens raw -> mentions_any negative_tokens raw ->
        value = "no" /\ w' = w)
    /\ (~ mentions_any affirmative_tokens raw -> ~ mentions_any negative_tokens raw ->
        random_choice ["yes"; "no"] w = (Ok value, w')).
Proof.
  intros Htype Hopen Hclose.
  pose proof (any_word_in_strip affirmative_tokens raw eq_refl) as Haff.
  pose proof (any_word_in_strip negative_tokens raw eq_refl) as Hneg.
  assert (Hparse : forall value w',
    _extract_answer_from_text question raw w = (Ok value, w') ->
    _parse_llm_response question raw w
    = (Ok (Answer.mk (Question.id question) (PyStr value) (7 # 10)
                     (PyStr "Parsed from text response")), w')).
  { intros value w' Hrun. unfold _parse_llm_response. rewrite Hopen. cbn [andb].
    unfold try_except, mbind, Py_bind. rewrite Hrun. reflexivity. }
  assert (Hrun : _extract_answer_from_text question raw w
    = (if any_word_in affirmative_tokens (Str.strip raw) then mret "yes"
       else if any_word_in negative_tokens (Str.strip raw) then mret "no"
       else random_choice ["yes"; "no"]) w).
  { unfold _extract_answer_from_text. rewrite Htype. reflexivity. }
  destruct (any_word_in affirmative_tokens (Str.strip raw)) eqn:Ha.
  { exists "yes", w. split; [exact Hrun |]. split; [apply Hparse, Hrun |].
    pose proof (proj1 Haff eq_refl).
    repeat split; intros; solve [auto | contradiction]. }
  assert (Hnot : ~ mentions_any affirmative_tokens raw)
    by (intros H; apply Haff in H; discriminate H).
  destruct (any_word_in negative_tokens (Str.strip raw)) eqn:Hn.
  { exists "no", w. split; [exact Hrun |]. split; [apply Hparse, Hrun |].
    pose proof (proj1 Hneg eq_refl).
    repeat split; intros; solve [auto | contradiction]. }
  assert (Hnot' : ~ mentions_any negative_tokens raw)
    by (intros H; apply Hneg in H; discriminate H).
  destruct (proj1 (returns_eq _ _ _)
              (random_choice_returns ["yes"; "no"] w ltac:(discriminate)))
    as (value & w' & Hdraw & _).
  rewrite Hdraw in Hrun.
  exists value, w'. split; [exact Hrun |]. split; [apply Hparse, Hrun |].
  repeat split; intros; solve [auto | contradiction].
Qed.

Lemma yes_no_free_text_witness :
  Question.type yes_no_question = "yes-no"
  /\ Str.has_char "{" "I believe no, that seems right." = false
  /\ Str.has_char "}" "I believe no, that seems right." = false
  /\ exists value w',
       _extract_answer_from_text yes_no_question "I believe no, that seems right."
         offline_world = (Ok value, w')
       /\ _parse_llm_response yes_no_question "I believe no, that seems right."
            offline_world
          = (Ok (Answer.mk (Question.id yes_no_question) (PyStr value) (7 # 10)
                           (PyStr "Parsed from text response")), w')
       /\ (mentions_any affirmative_tokens "I believe no, that seems right." ->
           value = "yes" /\ w' = offline_world)
       /\ (~ mentions_any affirmative_tokens "I believe no, that seems right." ->
           mentions_any negative_tokens "I believe no, that seems right." ->
           value = "no" /\ w' = offline_world)
       /\ (~ mentions_any affirmative_tokens "I believe no, that seems right." ->
           ~ mentions_any negative_tokens "I believe no, that seems right." ->
           random_choice ["yes"; "no"] offline_world = (Ok value, w')).
Proof.
  split; [reflexivity |]. split; [reflexivity |]. split; [reflexivity |].
  apply (yes_no_free_text yes_no_question "I believe no, that seems right."
           offline_world); reflexivity.
Defined.

Lemma string_app_assoc (a b c : string) : (a +:+ b) +:+ c = a +:+ b +:+ c.
Proof.
  induction a as [| x a IH]; [reflexivity |].
  change (String x ((a +:+ b) +:+ c) = String x (a +:+ b +:+ c)). rewrite IH. reflexivity.
Qed.

Lemma string_app_nil_r (a : string) : a +:+ "" = a.
Proof.
  induction a as [| x a IH]; [reflexivity |].
  change (String x (a +:+ "") = String x a). rewrite IH. reflexivity.
Qed.

Lemma mentions_suffix (pre token text : string) :
  mentions (pre +:+ token) text -> mentions token text.
Proof.
  intros (before & after & H). exists (before +:+ pre), after.
  rewrite H, !string_app_assoc. reflexivity.
Qed.

(** C6: the code lists disagree and incorrect among the negative tokens
    of a yes-no reply, but looks for the affirmative tokens first and
    as substrings: for every yes-no Question, a raw text without braces
    in which disagree or incorrect occurs (letter case aside) contains
    a negative token, and yet the free-text extraction returns "yes",
    never "no", drawing nothing, and the parser's Answer carries that
    "yes". *)
Theorem negative_tokens_shadowed (question : Question.t) (raw : string) (w : World) :
  Question.type question = "yes-no" ->
  Str.has_char "{" raw = false ->
  Str.has_char "}" raw = false ->
  mentions "disagree" raw \/ mentions "incorrect" raw ->
  mentions_any negative_tokens raw
  /\ _extract_answer_from_text question raw w = (Ok "yes", w)
  /\ _parse_llm_response question raw w
     = (Ok (Answer.mk (Question.id question) (PyStr "yes") (7 # 10)
                      (PyStr "Parsed from text response")), w).
Proof.
  intros Htype Hopen Hclose Hneg.
  assert (Hlisted : mentions_any negative_tokens raw).
  { destruct Hneg as [H | H]; [exists "disagree" | exists "incorrect"];
      (split; [unfold negative_tokens; simpl; tauto | exact H]). }
  assert (Haff : mentions_any affirmative_tokens raw).
  { destruct Hneg as [H | H].
    - exists "agree". split; [unfold affirmative_tokens; simpl; tauto |].
      apply (mentions_suffix "dis"), H.
    - exists "correct". split; [unfold affirmative_tokens; simpl; tauto |].
      apply (mentions_suffix "in"), H. }
  apply (any_word_in_strip affirmative_tokens raw eq_refl) in Haff.
  assert (Hrun : _extract_answer_from_text question raw w = (Ok "yes", w)).
  { transitivity
      ((if any_word_in affirmative_tokens (Str.strip raw) then mret "yes"
        else if any_word_in negative_tokens (Str.strip raw) then mret "no"
        else random_choice ["yes"; "no"]) w).
    - unfold _extract_answer_from_text. rewrite Htype. reflexivity.
    - rewrite Haff. reflexivity. }
  split; [exact Hlisted |]. split; [exact Hrun |].
  unfold _parse_llm_response. rewrite Hopen. cbn [andb].
  unfold try_except, mbind, Py_bind. rewrite Hrun. reflexivity.
Qed.

Lemma negative_tokens_shadowed_witness :
  Question.type yes_no_question = "yes-no"
  /\ Str.has_char "{" "I disagree." = false
  /\ Str.has_char "}" "I disagree." = false
  /\ mentions "disagree" "I disagree."
  /\ _extract_answer_from_text yes_no_question "I disagree." offline_world
     = (Ok "yes", offline_world).
Proof.
  assert (Hneg : mentions "disagree" "I disagree.")
    by (exists "i ", "."; reflexivity).
  split; [reflexivity |]. split; [reflexivity |]. split; [reflexivity |].
  split; [exact Hneg |].
  apply (negative_tokens_shadowed yes_no_question "I disagree." offline_world
           eq_refl eq_refl eq_refl (or_introl Hneg)).
Defined.

(** the same reply, run *)
Example disagree_is_yes :
  fst (_extract_answer_from_text yes_no_question "I disagree." offline_world) = Ok "yes".
Proof. vm_compute. reflexivity. Qed.

(** ** The JSON path of the parser *)

Lemma upto_close_app body : Re.upto_close (body +:+ "}") = Some (body +:+ "}").
Proof.
  induction body as [| c body IH]; simpl; [reflexivity |]. rewrite IH. reflexivity.
Qed.

Lemma search_braces_exact body :
  Re.search_braces ("{" +:+ body +:+ "}") = Some ("{" +:+ body +:+ "}").
Proof.
  unfold Re.search_braces.
  change ("{" +:+ body +:+ "}") with (String "{" (body +:+ "}")).
  cbn [Re.from_open Ascii.eqb Bool.eqb mbind option_bind Re.upto_close].
  rewrite upto_close_app. reflexivity.
Qed.

Lemma from_open_some s t :
  Re.from_open s = Some t ->
  Str.has_char "{" s = true
  /\ forall c, Str.has_char c t = true -> Str.has_char c s = true.
Proof.
  induction s as [| d s IH]; simpl; [discriminate |].
  destruct (Ascii.eqb_spec d "{") as [-> | Hd].
  - intros [= <-]. split; [reflexivity | auto].
  - intros H. destruct (IH H) as [Hopen Hsub]. split.
    + rewrite Hopen. apply orb_true_r.
    + intros c Hc. rewrite (Hsub c Hc). apply orb_true_r.
Qed.

Lemma upto_close_some s t : Re.upto_close s = Some t -> Str.has_char "}" s = true.
Proof.
  revert t. induction s as [| d s IH]; simpl; intros t; [discriminate |].
  destruct (Re.upto_close s) as [u |].
  - intros _. rewrite (IH u eq_refl). apply orb_true_r.
  - destruct (Ascii.eqb_spec d "}") as [-> | _]; [reflexivity | discriminate].
Qed.

Lemma search_braces_some raw span :
  Re.search_braces raw = Some span ->
  Str.has_char "{" raw && Str.has_char "}" raw = true.
Proof.
  unfold Re.search_braces. destruct (Re.from_open raw) as [t |] eqn:Ht; [| discriminate].
  simpl. intros Hspan. destruct (from_open_some _ _ Ht) as [Hopen Hsub].
  rewrite Hopen, (Hsub _ (upto_close_some _ _ Hspan)). reflexivity.
Qed.

(** when the braces span decodes to an object, the parser's answer is
    decided by [float] on the confidence field *)
Lemma parse_object question raw span d w :
  Re.search_braces raw = Some span ->
  Json.loads span = Some (PyDict d) ->
  _parse_llm_response question raw w
  = match py_float (dict_get d "confidence" (PyNum (7 # 10))) w with
    | (Ok confidence, w') =>
        (Ok (Answer.mk (Question.id question) (dict_get d "answer" (PyStr ""))
                       confidence (dict_get d "reasoning" (PyStr ""))), w')
    | (Raise _, w') => _generate_fallback_answer question w'
    end.
Proof.
  intros Hspan Hloads. unfold _parse_llm_response.
  rewrite (search_braces_some _ _ Hspan), Hspan.
  unfold try_except, json_loads, as_dict, mbind, Py_bind. rewrite Hloads. simpl.
  destruct (py_float _ w) as [[confidence | e] w']; reflexivity.
Qed.

Lemma digitless_float_lstrip s : digitless s = true -> digitless (float_lstrip s) = true.
Proof.
  unfold digitless. induction s as [| c s IH]; simpl; [reflexivity |].
  intros H. apply andb_prop in H as [Hc Hs].
  destruct (is_float_space c); [auto |]. simpl. rewrite Hc, Hs. reflexivity.
Qed.

Lemma digitless_float_rstrip s : digitless s = true -> digitless (float_rstrip s) = true.
Proof.
  unfold digitless. induction s as [| c s IH]; simpl; [reflexivity |].
  intros H. apply andb_prop in H as [Hc Hs]. specialize (IH Hs).
  destruct (float_rstrip s) as [| c' s'].
  - destruct (is_float_space c); [reflexivity |]. simpl. rewrite Hc. reflexivity.
  - change (negb (Str.is_digit c)
            && all_chars (fun c0 => negb (Str.is_digit c0)) (String c' s') = true).
    rewrite Hc, IH. reflexivity.
Qed.

Lemma digit_part_digitless s : digitless s = true -> digit_part s = ([], s).
Proof.
  unfold digitless. destruct s as [| c s]; simpl; [reflexivity |].
  intros H. apply andb_prop in H as [Hc _].
  apply negb_true_iff in Hc. rewrite Hc. reflexivity.
Qed.

Lemma digitless_tail c s : digitless (String c s) = true -> digitless s = true.
Proof. unfold digitless. simpl. intros H. apply andb_prop in H as [_ H]. exact H. Qed.

(** A text without any digit is no float text of the model. *)
Lemma float_of_str_digitless s : digitless s = true -> float_of_str s = None.
Proof.
  intros H. unfold float_of_str.
  pose proof (digitless_float_rstrip _ (digitless_float_lstrip _ H)) as Ht.
  set (t := float_rstrip (float_lstrip s)) in *. clearbody t.
  assert (Hnum : forall s1, digitless s1 = true ->
            (let '(ip, s2) := digit_part s1 in
             let '(fp, s3) :=
               match s2 with
               | String "." r => digit_part r
               | _ => ([], s2)
               end in
             match (ip ++ fp)%list with
             | [] => None
             | ds =>
                 let '(e, s4) := float_exponent s3 in
                 match s4 with
                 | EmptyString =>
                     let m := Str.digits_val ds in
                     Some (Json.scale10 (m # Json.pow10 (length fp)) e)
                 | _ => None
                 end
             end) = @None Q
            /\ (let '(ip, s2) := digit_part s1 in
                let '(fp, s3) :=
                  match s2 with
                  | String "." r => digit_part r
                  | _ => ([], s2)
                  end in
                match (ip ++ fp)%list with
                | [] => None
                | ds =>
                    let '(e, s4) := float_exponent s3 in
                    match s4 with
                    | EmptyString =>
                        let m := Str.digits_val ds in
                        Some (Json.scale10 ((- m)%Z # Json.pow10 (length fp)) e)
                    | _ => None
                    end
                end) = @None Q).
  { intros s1 H1. rewrite (digit_part_digitless _ H1).
    destruct s1 as [| c r]; [split; reflexivity |].
    pose proof (digitless_tail _ _ H1) as Hr.
    destruct (Ascii.eqb_spec c ".") as [-> | Hc].
    - rewrite (digit_part_digitless _ Hr). split; reflexivity.
    - assert (Hsame : match String c r with
                      | String "." r0 => digit_part r0
                      | _ => ([], String c r)
                      end = ([], String c r)).
      { destruct c as [[] [] [] [] [] [] [] []]; try reflexivity.
        exfalso. apply Hc. reflexivity. }
      rewrite Hsame. split; reflexivity. }
  destruct t as [| c r]; [reflexivity |].
  pose proof (digitless_tail _ _ Ht) as Hr.
  destruct (Ascii.eqb_spec c "-") as [-> | Hminus];
    [exact (proj2 (Hnum r Hr)) |].
  destruct (Ascii.eqb_spec c "+") as [-> | Hplus];
    [exact (proj1 (Hnum r Hr)) |].
  assert (Hsign : match String c r with
                  | String "-" r0 => (true, r0)
                  | String "+" r0 => (false, r0)
                  | _ => (false, String c r)
                  end = (false, String c r)).
  { destruct c as [[] [] [] [] [] [] [] []]; try reflexivity; exfalso;
      [apply Hplus | apply Hminus]; reflexivity. }
  rewrite Hsign. exact (proj1 (Hnum (String c r) Ht)).
Qed.

Lemma py_float_rejects v w : not_a_float v -> exists e, py_float v w = (Raise e, w).
Proof.
  destruct v as [| b | z | q | k | s | l | d]; simpl; intros H; try contradiction;
    try (eexists; reflexivity).
  - apply Z.ltb_ge in H. rewrite H. eexists; reflexivity.
  - destruct H as (_ & Hdigits & _). rewrite (float_of_str_digitless _ Hdigits).
    eexists; reflexivity.
Qed.

(** a confidence beyond the float range: the reply is exactly a JSON
    object with the three keys and a number as confidence, and the
    answer is the fallback, not the reply's *)
Lemma huge_confidence_gives_fallback :
  shallow ("{" +:+ huge_confidence_body +:+ "}")
  /\ Json.loads ("{" +:+ huge_confidence_body +:+ "}")
     = Some (PyDict {[ "answer" := PyStr "yes"; "confidence" := PyInt (10 ^ 400);
                       "reasoning" := PyStr "ok" ]})
  /\ exists answer w',
       _parse_llm_response yes_no_question ("{" +:+ huge_confidence_body +:+ "}")
         offline_world = (Ok answer, w')
       /\ Answer.confidence answer = 3 # 10
       /\ Answer.reasoning answer = PyStr "Fallback answer due to API failure"
       /\ rand_pos w' <> rand_pos offline_world.
Proof.
  split; [vm_compute; lia |].
  split; [vm_compute; reflexivity |].
  eexists _, _. split; [vm_compute; reflexivity |]. simpl.
  split; [reflexivity |]. split; [reflexivity |]. intros H. discriminate H.
Qed.

(** C5, amended: for every Question and every raw text that is exactly a
    JSON object with the keys answer, confidence and reasoning, whose
    confidence is a number that float() converts (a float or an
    integer, within the float range) and whose brackets stay within the
    recursion limit, the parser returns the Answer with the Question's
    id, the answer and the reasoning as they are and the confidence as
    a float; nothing is drawn from the random module, which both the
    free-text extraction's and the Fallback Synthesizer's choices
    need. *)
Theorem parser_round_trip (question : Question.t) (body : string)
    (X R v : pyval) (C : Q) (w : World) :
  shallow ("{" +:+ body +:+ "}") ->
  Json.loads ("{" +:+ body +:+ "}")
  = Some (PyDict {[ "answer" := X; "confidence" := v; "reasoning" := R ]}) ->
  float_value v C ->
  _parse_llm_response question ("{" +:+ body +:+ "}") w
  = (Ok (Answer.mk (Question.id question) X C R), w).
Proof.
  intros _ Hloads Hfloat.
  rewrite (parse_object question _ _ _ w (search_braces_exact body) Hloads).
  unfold dict_get. rewrite lookup_insert_eq.
  rewrite lookup_insert_ne, lookup_insert_eq by discriminate.
  rewrite !lookup_insert_ne, lookup_singleton_eq by discriminate.
  destruct Hfloat as [[-> _] | (z & -> & Hrange & ->)]; [reflexivity |].
  unfold py_float. apply Z.ltb_lt in Hrange. rewrite Hrange. reflexivity.
Qed.

Lemma parser_round_trip_witness :
  shallow ("{" +:+ exact_body +:+ "}")
  /\ Json.loads ("{" +:+ exact_body +:+ "}")
     = Some (PyDict {[ "answer" := PyStr "yes"; "confidence" := PyNum (8 # 10);
                       "reasoning" := PyStr "ok" ]})
  /\ float_value (PyNum (8 # 10)) (8 # 10)
  /\ _parse_llm_response yes_no_question ("{" +:+ exact_body +:+ "}") offline_world
     = (Ok (Answer.mk (Question.id yes_no_question) (PyStr "yes") (8 # 10) (PyStr "ok")),
        offline_world).
Proof.
  assert (Hshallow : shallow ("{" +:+ exact_body +:+ "}"))
    by (vm_compute; lia).
  assert (H : Json.loads ("{" +:+ exact_body +:+ "}")
              = Some (PyDict {[ "answer" := PyStr "yes"; "confidence" := PyNum (8 # 10);
                                "reasoning" := PyStr "ok" ]}))
    by (vm_compute; reflexivity).
  assert (Hfloat : float_value (PyNum (8 # 10)) (8 # 10))
    by (left; split; [reflexivity | split; vm_compute; reflexivity]).
  split; [exact Hshallow |]. split; [exact H |]. split; [exact Hfloat |].
  apply (parser_round_trip yes_no_question exact_body (PyStr "yes") (PyStr "ok")
           (PyNum (8 # 10)) (8 # 10) offline_world Hshallow H Hfloat).
Defined.

(** a confidence that is present but not a number: the reply is a JSON
    object, and the answer is the fallback, not one with the default 0.7 *)
Lemma invalid_confidence_gives_fallback :
  Re.search_braces vague_reply = Some vague_reply
  /\ Json.loads vague_reply
     = Some (PyDict {[ "answer" := PyStr "yes"; "confidence" := PyStr "high" ]})
  /\ shallow vague_reply
  /\ not_a_float (PyStr "high")
  /\ exists answer w',
       _parse_llm_response yes_no_question vague_reply offline_world = (Ok answer, w')
       /\ ~ (Answer.confidence answer == 7 # 10)%Q
       /\ Answer.confidence answer = 3 # 10
       /\ Answer.reasoning answer = PyStr "Fallback answer due to API failure".
Proof.
  split; [vm_compute; reflexivity |]. split; [vm_compute; reflexivity |].
  split; [vm_compute; lia |].
  split; [vm_compute; repeat split |].
  eexists _, _. split; [vm_compute; reflexivity |]. simpl.
  split; [| split; reflexivity]. intros H. discriminate H.
Qed.

(** C7, amended: for every Question and every raw text whose span from
    the first opening brace to the last closing brace decodes to a JSON
    object (its brackets within the recursion limit): when the object
    has no confidence key, the parsed Answer's confidence is the default
    0.7, answer and reasoning default to the empty string when absent,
    and no fallback answer is substituted; when the confidence is
    present but is a value float() does not accept (null, a list, an
    object, an integer beyond the float range, or an ASCII text without
    a digit that names neither an infinity nor a nan), the parser
    returns the Fallback Synthesizer's answer. *)
Theorem parser_confidence_default (question : Question.t) (raw span : string)
    (d : gmap string pyval) (w : World) :
  Re.search_braces raw = Some span ->
  shallow span ->
  Json.loads span = Some (PyDict d) ->
  (d !! "confidence" = None ->
   _parse_llm_response question raw w
   = (Ok (Answer.mk (Question.id question) (dict_get d "answer" (PyStr ""))
                    (7 # 10) (dict_get d "reasoning" (PyStr ""))), w))
  /\ (forall v, d !! "confidence" = Some v -> not_a_float v ->
      _parse_llm_response question raw w = _generate_fallback_answer question w).
Proof.
  intros Hspan _ Hloads.
  rewrite (parse_object question raw span d w Hspan Hloads). split.
  - intros Hnone. unfold dict_get at 1. rewrite Hnone. reflexivity.
  - intros v Hsome Hbad. unfold dict_get at 1. rewrite Hsome.
    destruct (py_float_rejects v w Hbad) as [e ->]. reflexivity.
Qed.

Lemma parser_confidence_default_witness :
  Re.search_braces chatty_reply = Some (Str.quoted "{'answer': 'blue'}")
  /\ shallow (Str.quoted "{'answer': 'blue'}")
  /\ Json.loads (Str.quoted "{'answer': 'blue'}")
     = Some (PyDict {[ "answer" := PyStr "blue" ]})
  /\ _parse_llm_response text_question chatty_reply offline_world
     = (Ok (Answer.mk 3 (PyStr "blue") (7 # 10) (PyStr "")), offline_world).
Proof.
  assert (Hspan : Re.search_braces chatty_reply = Some (Str.quoted "{'answer': 'blue'}"))
    by (vm_compute; reflexivity).
  assert (Hloads : Json.loads (Str.quoted "{'answer': 'blue'}")
                   = Some (PyDict {[ "answer" := PyStr "blue" ]}))
    by (vm_compute; reflexivity).
  assert (Hshallow : shallow (Str.quoted "{'answer': 'blue'}"))
    by (vm_compute; lia).
  split; [exact Hspan |]. split; [exact Hshallow |]. split; [exact Hloads |].
  destruct (parser_confidence_default text_question chatty_reply _ _ offline_world
              Hspan Hshallow Hloads) as [Habsent _].
  rewrite (Habsent eq_refl). reflexivity.
Defined.

(** ** The parser and generate_answer return an answer to the question *)

Lemma wp_trivial {A} (m : Py A) w : wp m w (fun _ _ => True) (fun _ _ => True).
Proof. unfold wp. destruct (m w) as [[a | e] w']; exact I. Qed.

Lemma parse_returns question response w :
  returns (_parse_llm_response question response) w
          (fun answer _ => answers_to question answer).
Proof.
  unfold _parse_llm_response. apply wp_try_except.
  set (E := fun (_ : exn) (w' : World) =>
         wp (_generate_fallback_answer question) w'
            (fun answer _ => answers_to question answer) (fun _ _ => False)).
  assert (HE : forall e w', E e w').
  { intros e w'. eapply returns_mono; [apply fallback_returns |].
    intros answer _ [Hid _]. exact Hid. }
  assert (Htext : forall w',
    wp (answer_value ← _extract_answer_from_text question response;
        mret (Answer.mk (Question.id question) (PyStr answer_value) (7 # 10)
                        (PyStr "Parsed from text response"))) w'
       (fun answer _ => answers_to question answer) E).
  { intros w'. apply wp_bind. wp_after (apply wp_trivial).
    intros value w'' _. apply wp_ret. reflexivity. }
  destruct (Str.has_char "{" response && Str.has_char "}" response); [| apply Htext].
  destruct (Re.search_braces response) as [json_match |]; [| apply Htext].
  apply wp_bind. wp_after (apply wp_trivial).
  intros data w1 _. apply wp_bind. wp_after (apply wp_trivial).
  intros confidence w2 _. apply wp_ret. reflexivity.
Qed.

Lemma provider_answer_wp (cost : Q) question w :
  wp (try_except
        (response ← api_call;
         add_cost cost;;
         content ← first_content response;
         _parse_llm_response question content)
        (fun e => raise e)) w
     (fun answer _ => answers_to question answer) (fun _ _ => True).
Proof.
  apply wp_try_except.
  apply wp_bind. eapply wp_mono; [apply wp_trivial | | intros; exact I].
  intros response w1 _. apply wp_bind, wp_modify.
  apply wp_bind. eapply wp_mono; [apply wp_trivial | | intros; exact I].
  intros content w2 _. eapply wp_mono; [apply parse_returns | auto | intros ? ? []].
Qed.

Lemma generate_answer_wrapped_returns question context w :
  returns (generate_answer_wrapped question context) w
          (fun answer _ => answers_to question answer).
Proof.
  unfold generate_answer_wrapped. apply wp_try_except.
  set (E := fun (_ : exn) (w' : World) =>
         wp (_generate_fallback_answer question) w'
            (fun answer _ => answers_to question answer) (fun _ _ => False)).
  assert (HE : forall e w', E e w').
  { intros e w'. eapply returns_mono; [apply fallback_returns |].
    intros answer _ [Hid _]. exact Hid. }
  apply wp_bind.
  apply wp_mono with (P := fun answer _ => answers_to question answer)
                     (E := fun _ _ => True); [| | auto].
  - apply wp_bind, wp_get. destruct (openai_client w).
    + apply (provider_answer_wp (2 # 1000)).
    + apply wp_bind, wp_get. destruct (anthropic_client w).
      * apply (provider_answer_wp (1 # 1000)).
      * apply wp_raise. exact I.
  - intros answer w1 Hid. apply wp_bind, wp_modify, wp_ret. exact Hid.
Qed.

(** the decorator never sees a failure: the function under it returns *)
Lemma generate_answer_unfold question context w :
  generate_answer question context w = generate_answer_wrapped question context w.
Proof.
  unfold generate_answer, retry.
  eapply retrying_returns, generate_answer_wrapped_returns.
Qed.

Lemma generate_answer_returns question context w :
  returns (generate_answer question context) w
          (fun answer _ => answers_to question answer).
Proof.
  unfold returns, wp. rewrite generate_answer_unfold.
  apply generate_answer_wrapped_returns.
Qed.

(** C4: at a provider that rejects the first call and would answer the
    second, generate_answer makes one call, does not wait, and returns
    the Fallback Synthesizer's answer, although a second attempt from the
    world so reached returns the provider's answer. *)
Theorem failed_call_is_not_retried :
  provider_tape flaky_world 0 = CallRaises
  /\ exists answer w',
       generate_answer yes_no_question None flaky_world = (Ok answer, w')
       /\ Answer.reasoning answer = PyStr "Fallback answer due to API failure"
       /\ Answer.confidence answer = 3 # 10
       /\ provider_calls w' = 1%nat
       /\ slept w' = []
       /\ request_count w' = 0%Z
       /\ fst (_generate_openai_answer yes_no_question None w')
          = Ok (Answer.mk 1 (PyStr "yes") (9 # 10) (PyStr "sure")).
Proof.
  split; [reflexivity |].
  eexists _, _. split; [vm_compute; reflexivity |].
  repeat split; vm_compute; reflexivity.
Qed.

(** ** The Batch Orchestrator *)

Lemma wp_capture {A} (m : Py A) w (P : result A -> World -> Prop) E :
  wp m w (fun a w' => P (Ok a) w') (fun e w' => P (Raise e) w') ->
  wp (capture m) w P E.
Proof.
  unfold wp, capture. destruct (m w) as [[a | e] w']; auto.
Qed.

(** gather keeps one outcome per task, in the order of the batch *)
Lemma gather_returns (task : Question.t -> Py Answer.t) batch w :
  (forall question w', wp (task question) w'
                          (fun answer _ => answers_to question answer)
                          (fun _ _ => True)) ->
  returns (gather task batch) w (fun outcomes _ => Forall2 outcome_for batch outcomes).
Proof.
  intros Htask. unfold gather. revert w.
  induction batch as [| question batch IH]; intros w; simpl.
  - apply wp_ret. constructor.
  - apply wp_bind, wp_capture.
    eapply wp_mono with (P' := fun a w' => _) (E' := fun e w' => _); [apply Htask | |].
    + intros answer w1 Hid. apply wp_bind.
      wp_after (apply IH).
      intros outcomes w2 Hrest. apply wp_ret. constructor; [exact Hid | exact Hrest].
    + intros e w1 _. apply wp_bind.
      wp_after (apply IH).
      intros outcomes w2 Hrest. apply wp_ret. constructor; [exact I | exact Hrest].
Qed.

Lemma drop_cons_inv {A} (l : list A) k x rest :
  drop k l = x :: rest -> l !! k = Some x /\ drop (S k) l = rest.
Proof.
  intros H. split.
  - rewrite <- (Nat.add_0_r k), <- lookup_drop, H. reflexivity.
  - replace (S k) with (k + 1)%nat by lia. rewrite <- drop_drop, H. reflexivity.
Qed.

(** the loop over a batch's outcomes appends one answer per question of
    the batch, in order *)
Lemma batch_loop_returns batch outcomes : forall k answers w,
  Forall2 outcome_for (drop k batch) outcomes ->
  returns
    (for_fold (fun answers '(j, result) =>
         result ←
           match result with
           | Raise _ => index batch j ≫= _generate_fallback_answer
           | Ok answer => mret answer
           end;
         question ← index batch j;
         result ← make_answer_human_like result question;
         mret (answers ++ [result])%list)
       answers (combine (seq k (length outcomes)) outcomes)) w
    (fun answers' _ =>
       List.map Answer.question_id answers'
       = (List.map Answer.question_id answers
          ++ List.map Question.id (drop k batch))%list).
Proof.
  induction outcomes as [| outcome outcomes IH]; intros k answers w Hall.
  - inversion Hall as [Hnil |]. apply wp_ret. rewrite app_nil_r. reflexivity.
  - inversion Hall as [| question ? rest ? Hout Hrest Hdrop]; subst.
    symmetry in Hdrop. destruct (drop_cons_inv _ _ _ _ Hdrop) as [Hk Hrest'].
    cbn [length seq combine for_fold]. apply wp_bind, wp_bind.
    apply wp_mono with (P := fun answer _ => answers_to question answer)
                       (E := fun _ _ => False); [| | auto].
    { destruct outcome as [answer | e].
      - apply wp_ret. exact Hout.
      - apply wp_bind. eapply wp_index; [exact Hk |].
        eapply returns_mono; [apply fallback_returns |].
        intros answer _ [Hid _]. exact Hid. }
    intros answer w1 Hid. apply wp_bind. eapply wp_index; [exact Hk |].
    apply wp_bind. wp_after (apply humanizer_returns).
    intros answer' w2 (Hid' & _). apply wp_ret.
    wp_after (apply (IH (S k)); rewrite Hrest'; exact Hrest).
    intros answers' w3 Hmap. cbn beta in Hmap. rewrite Hmap, Hrest'.
    rewrite List.map_app. cbn [List.map]. rewrite <- app_assoc. cbn [app].
    rewrite Hid', Hid. reflexivity.
Qed.

Lemma pause_returns (pause : bool) w :
  returns (if pause then random_uniform 1 3 ≫= sleep else mret tt) w (fun _ _ => True).
Proof.
  destruct pause; [| apply wp_ret; exact I].
  apply wp_bind. wp_after (apply random_uniform_returns; lra).
  intros d w' _. apply wp_modify. exact I.
Qed.

(** after the batches that start at [k0 * 3], ..., the answers collected
    so far are those to the questions in front of the next batch *)
Lemma batches_loop_returns questions context : forall m k0 answers w,
  List.map Answer.question_id answers
  = List.map Question.id (take (k0 * batch_size) questions) ->
  returns
    (for_fold (fun answers i =>
         let batch := slice i (i + batch_size) questions in
         batch_answers ← gather (fun q => generate_answer q context) batch;
         answers ←
           for_fold (fun answers '(j, result) =>
               result ←
                 match result with
                 | Raise _ => index batch j ≫= _generate_fallback_answer
                 | Ok answer => mret answer
                 end;
               question ← index batch j;
               result ← make_answer_human_like result question;
               mret (answers ++ [result])%list)
             answers (enumerate batch_answers);
         (if (i + batch_size <? length questions)%nat then
            random_uniform 1 3 ≫= sleep
          else mret tt);;
         mret answers)
       answers (List.map (fun k => k * batch_size)%nat (seq k0 m))) w
    (fun answers' _ =>
       List.map Answer.question_id answers'
       = List.map Question.id (take ((k0 + m) * batch_size) questions)).
Proof.
  induction m as [| m IH]; intros k0 answers w Hsofar.
  - apply wp_ret. rewrite Nat.add_0_r. exact Hsofar.
  - cbn [seq List.map for_fold]. apply wp_bind.
    set (i := (k0 * batch_size)%nat) in *.
    set (batch := slice i (i + batch_size) questions). cbn zeta.
    apply wp_bind. wp_after (apply gather_returns).
    { intros question w'. eapply wp_mono; [apply generate_answer_returns | auto | auto]. }
    intros outcomes w1 Hall. apply wp_bind. unfold enumerate.
    wp_after (apply (batch_loop_returns batch outcomes 0%nat); exact Hall).
    intros answers1 w2 Hmap. cbn beta in Hmap. apply wp_bind.
    wp_after (apply pause_returns).
    intros [] w3 _. apply wp_ret.
    wp_after (apply (IH (S k0))).
    + rewrite Hmap, Hsofar. unfold batch, slice.
      replace (i + batch_size - i)%nat with batch_size by lia.
      rewrite drop_0, <- List.map_app, take_take_drop.
      replace (S k0 * batch_size)%nat with (i + batch_size)%nat by (unfold i; lia).
      reflexivity.
    + intros answers' w4 Hdone. cbn beta in Hdone. rewrite Hdone.
      replace (S k0 + m)%nat with (k0 + S m)%nat by lia. reflexivity.
Qed.

Lemma range_step_covers n : (n <= (n + batch_size - 1) / batch_size * batch_size)%nat.
Proof.
  unfold batch_size.
  pose proof (Nat.div_mod_eq (n + 3 - 1) 3) as Hdiv.
  pose proof (Nat.mod_upper_bound (n + 3 - 1) 3 ltac:(discriminate)) as Hmod.
  lia.
Qed.

(** C1: for every sequence of Questions, whatever the provider and the
    random module do, process_poll_questions returns a list of Answers
    of the same length, and the i-th Answer carries the i-th Question's
    id. *)
Theorem process_poll_questions_one_answer_each (questions : list Question.t)
    (context : option string) (w : World) :
  exists answers w',
    process_poll_questions questions context w = (Ok answers, w')
    /\ length answers = length questions
    /\ List.map Answer.question_id answers = List.map Question.id questions
    /\ forall i question, questions !! i = Some question ->
         exists answer, answers !! i = Some answer
                        /\ Answer.question_id answer = Question.id question.
Proof.
  pose proof (batches_loop_returns questions context
                ((length questions + batch_size - 1) / batch_size) 0 [] w eq_refl) as Hrun.
  apply returns_eq in Hrun as (answers & w' & Hrun & Hmap).
  rewrite take_ge in Hmap by apply range_step_covers.
  exists answers, w'. split; [exact Hrun |].
  assert (Hlen : length answers = length questions).
  { rewrite <- (length_map Answer.question_id answers), Hmap. apply length_map. }
  split; [exact Hlen |]. split; [exact Hmap |].
  intros i question Hi.
  destruct (lookup_lt_is_Some_2 answers i) as [answer Ha].
  { rewrite Hlen. eapply lookup_lt_Some, Hi. }
  exists answer. split; [exact Ha |].
  assert (Hi' : List.map Answer.question_id answers !! i
                = List.map Question.id questions !! i) by (rewrite Hmap; reflexivity).
  change (@List.map) with (@fmap list _) in Hi'.
  rewrite !list_lookup_fmap, Ha, Hi in Hi'. simpl in Hi'. congruence.
Qed.

Example process_seven_questions :
  List.map Answer.question_id
    (match fst (process_poll_questions
                  [yes_no_question; rating_question; text_question; yes_no_question;
                   text_question; rating_question; yes_no_question] None flaky_world) with
     | Ok answers => answers
     | Raise _ => []
     end)
  = [1; 2; 3; 1; 3; 2; 1]%Z.
Proof. vm_compute. reflexivity. Qed.

(** ** Frames: what a computation leaves alone *)

Section Frames.
Context (R : World -> World -> Prop) `{!PreOrder R}.

Lemma frames_ret {A} (a : A) : frames R (mret a).
Proof. intros w. apply wp_ret. reflexivity. Qed.

Lemma frames_raise {A} e : frames R (raise e : Py A).
Proof. intros w. apply wp_raise. reflexivity. Qed.

Lemma frames_bind {A B} (m : Py A) (f : A -> Py B) :
  frames R m -> (forall a, frames R (f a)) -> frames R (m ≫= f).
Proof.
  intros Hm Hf w. specialize (Hm w). unfold wp, mbind, Py_bind in *.
  destruct (m w) as [[a | e] w1]; [| exact Hm].
  specialize (Hf a w1). unfold wp in Hf.
  destruct (f a w1) as [[b | e] w2]; etransitivity; eassumption.
Qed.

Lemma frames_try_except {A} (body : Py A) handler :
  frames R body -> (forall e, frames R (handler e)) -> frames R (try_except body handler).
Proof.
  intros Hm Hh w. specialize (Hm w). unfold wp, try_except in *.
  destruct (body w) as [[a | e] w1]; [exact Hm |].
  specialize (Hh e w1). unfold wp in Hh.
  destruct (handler e w1) as [[b | e'] w2]; etransitivity; eassumption.
Qed.

Lemma frames_capture {A} (m : Py A) : frames R m -> frames R (capture m).
Proof.
  intros Hm w. specialize (Hm w). unfold wp, capture in *.
  destruct (m w) as [[a | e] w1]; exact Hm.
Qed.

Lemma frames_get {A} (f : World -> A) : frames R (get f).
Proof. intros w. apply wp_get. reflexivity. Qed.

Lemma frames_index {A} (l : list A) i : frames R (index l i).
Proof. unfold index. destruct (l !! i); [apply frames_ret | apply frames_raise]. Qed.

Lemma frames_for_each {A B} (f : A -> Py B) l :
  (forall x, frames R (f x)) -> frames R (for_each f l).
Proof.
  intros Hf. induction l as [| x l IH]; simpl; [apply frames_ret |].
  apply frames_bind; [apply Hf |]. intros y.
  apply frames_bind; [exact IH |]. intros ys. apply frames_ret.
Qed.

Lemma frames_for_fold {A S} (body : S -> A -> Py S) l :
  (forall s x, frames R (body s x)) -> forall s, frames R (for_fold body s l).
Proof.
  intros Hf. induction l as [| x l IH]; intros s; simpl; [apply frames_ret |].
  apply frames_bind; [apply Hf | exact IH].
Qed.

(** a postcondition and a frame hold together *)
Lemma returns_frames {A} (m : Py A) w (P : A -> World -> Prop) :
  returns m w P -> frames R m -> returns m w (fun a w' => P a w' /\ R w w').
Proof.
  intros HP HR. specialize (HR w). unfold returns, wp in *.
  destruct (m w) as [[a | e] w']; [split; assumption | exact HP].
Qed.

End Frames.

#[global] Instance draws_only_preorder : PreOrder draws_only.
Proof.
  split.
  - intros w. split; [destruct w; reflexivity | lia].
  - intros w1 w2 w3 [H12 Hle12] [H23 Hle23]. split; [| lia].
    rewrite H23 at 1. rewrite H12. destruct w1; reflexivity.
Qed.

Lemma frames_draw : frames draws_only draw.
Proof. intros w. apply wp_draw. split; [destruct w; reflexivity | simpl; lia]. Qed.
(** one step of a frame proof: follow the structure of the computation *)
Ltac frames_step :=
  lazymatch goal with
  | |- frames ?R (if ?b then _ else _) => destruct b
  | |- frames ?R (match ?x with _ => _ end) => destruct x
  | |- frames ?R _ =>
      first
        [ simple apply (frames_ret R)
        | simple apply (frames_raise R)
        | simple apply (frames_get R)
        | simple apply (frames_index R)
        | simple apply frames_draw
        | match goal with H : _ |- _ => simple apply H end
        | simple apply (frames_bind R); [| intros ?]
        | simple apply (frames_try_except R); [| intros ?] ]
  end.

Ltac frames_auto := repeat frames_step.

Lemma frames_random_random : frames draws_only random_random.
Proof. unfold random_random. frames_auto. Qed.

Lemma frames_random_uniform a b : frames draws_only (random_uniform a b).
Proof. unfold random_uniform. pose proof frames_random_random. frames_auto. Qed.

Lemma frames_random_choice {A} (l : list A) : frames draws_only (random_choice l).
Proof. unfold random_choice. frames_auto. Qed.

Lemma frames_random_randint a b : frames draws_only (random_randint a b).
Proof. unfold random_randint. frames_auto. Qed.

Lemma frames_random_option_value question :
  frames draws_only (random_option_value question).
Proof.
  unfold random_option_value.
  pose proof (frames_random_choice (Question.options question)). frames_auto.
Qed.

Lemma frames_fallback question : frames draws_only (_generate_fallback_answer question).
Proof.
  unfold _generate_fallback_answer.
  pose proof (frames_random_choice ["yes"; "no"]).
  pose proof (frames_random_choice fallback_phrases).
  pose proof (frames_random_option_value question).
  pose proof (frames_random_randint 3 7).
  frames_auto.
Qed.

Lemma frames_extract question text :
  frames draws_only (_extract_answer_from_text question text).
Proof.
  unfold _extract_answer_from_text. cbv zeta.
  pose proof (frames_random_choice ["yes"; "no"]).
  pose proof (frames_random_option_value question).
  pose proof (frames_random_randint 3 7).
  frames_auto.
Qed.

Lemma frames_py_float v : frames draws_only (py_float v).
Proof. unfold py_float. frames_auto. Qed.

Lemma frames_parse question response :
  frames draws_only (_parse_llm_response question response).
Proof.
  unfold _parse_llm_response, json_loads, as_dict. cbv zeta.
  pose proof (frames_extract question response).
  pose proof (frames_fallback question).
  pose proof frames_py_float.
  frames_auto.
Qed.

Lemma frames_humanizer answer question :
  frames draws_only (make_answer_human_like answer question).
Proof.
  unfold make_answer_human_like.
  pose proof frames_random_random.
  pose proof (frames_random_choice human_patterns_uncertainty).
  pose proof (frames_random_choice human_patterns_hedging).
  pose proof (frames_random_uniform (1 # 10) (3 # 10)).
  frames_auto.
Qed.

(** ** Free-text extraction, every question type *)

Lemma extract_returns question text w :
  returns (_extract_answer_from_text question text) w (fun _ _ => True).
Proof.
  unfold _extract_answer_from_text. cbv zeta.
  destruct (String.eqb (Question.type question) "yes-no").
  { destruct (any_word_in _ _); [apply wp_ret; exact I |].
    destruct (any_word_in _ _); [apply wp_ret; exact I |].
    wp_after (apply random_choice_returns; discriminate). intros; exact I. }
  destruct (is_choice_with_options question) eqn:Hchoice.
  { destruct (List.find _ _); [apply wp_ret; exact I |].
    apply random_option_value_returns, is_choice_with_options_nonempty, Hchoice. }
  destruct (String.eqb (Question.type question) "rating").
  { destruct (Re.first_rating _); [apply wp_ret; exact I |].
    apply wp_bind. wp_after (apply (random_randint_returns 3 7); lia).
    intros n w' _. apply wp_ret. exact I. }
  destruct (200 <? String.length (Str.strip text))%nat; [apply wp_ret; exact I |].
  destruct (String.eqb (Str.strip text) ""); apply wp_ret; exact I.
Qed.

(** X1: the free-text extraction returns a value for every question and
    every text (it never raises), and on its way it does nothing to the
    world but draw from the random module: no provider call, no cost, no
    counted request, no sleep. *)
Theorem extraction_never_raises (question : Question.t) (text : string) (w : World) :
  exists value w',
    _extract_answer_from_text question text w = (Ok value, w')
    /\ draws_only w w'.
Proof.
  pose proof (returns_frames draws_only _ w _ (extract_returns question text w)
                (frames_extract question text)) as H.
  apply returns_eq in H as (value & w' & Hrun & _ & Hframe). eauto.
Qed.

Lemma rating_here_in_scale s m : Re.rating_here s = Some m -> In m rating_scale.
Proof.
  destruct s as [| c r]; [discriminate |]. unfold Re.rating_here.
  destruct (Str.is_digit c && negb (Ascii.eqb c "0")) eqn:Hc; [| discriminate].
  destruct (Re.boundary r).
  - intros [= <-]. revert Hc.
    destruct c as [[] [] [] [] [] [] [] []]; cbv; intros Hc;
      solve [discriminate Hc | tauto].
  - clear Hc. destruct c as [[] [] [] [] [] [] [] []];
      try (intros H; discriminate H).
    destruct r as [| d r']; [intros H; discriminate H |].
    destruct d as [[] [] [] [] [] [] [] []]; try (intros H; discriminate H).
    destruct (Re.boundary r'); [| intros H; discriminate H].
    intros [= <-]. cbv. tauto.
Qed.

Lemma rating_from_in_scale s : forall prev m,
  Re.rating_from prev s = Some m -> In m rating_scale.
Proof.
  induction s as [| c r IH]; intros prev m; cbn [Re.rating_from]; [discriminate |].
  destruct prev.
  - apply IH.
  - destruct (Re.rating_here (String c r)) as [m' |] eqn:Hhere.
    + intros [= <-]. eapply rating_here_in_scale, Hhere.
    + apply IH.
Qed.

Lemma moderate_in_scale value : In value moderate_ratings -> In value rating_scale.
Proof. unfold moderate_ratings, rating_scale. simpl. intuition. Qed.

Lemma pretty_moderate (n : Z) : (3 <= n <= 7)%Z -> In (pretty n) moderate_ratings.
Proof.
  intros H.
  assert (Hn : n = 3%Z \/ n = 4%Z \/ n = 5%Z \/ n = 6%Z \/ n = 7%Z) by lia.
  destruct Hn as [-> | [-> | [-> | [-> | ->]]]]; vm_compute; intuition.
Qed.

(** X2: for a rating question and an ASCII text the free-text
    extraction always returns a numeral of the scale 1 to 10: the first
    standalone rating of the text when there is one, and otherwise a
    moderate rating, 3 to 7. *)
Theorem rating_extraction_in_scale (question : Question.t) (text : string)
    (w : World) :
  Question.type question = "rating" ->
  ascii_only text = true ->
  exists value w',
    _extract_answer_from_text question text w = (Ok value, w')
    /\ In value rating_scale
    /\ (forall number, Re.first_rating (Str.strip text) = Some number ->
        value = number /\ w' = w)
    /\ (Re.first_rating (Str.strip text) = None -> In value moderate_ratings).
Proof.
  intros Htype _. unfold _extract_answer_from_text, is_choice_with_options.
  rewrite Htype. cbn [String.eqb Ascii.eqb Bool.eqb orb andb].
  destruct (Re.first_rating (Str.strip text)) as [number |] eqn:Hfirst.
  - exists number, w. split; [reflexivity |].
    split; [eapply rating_from_in_scale, Hfirst |].
    split; [intros ? [= <-]; auto | discriminate].
  - destruct (proj1 (returns_eq _ _ _) (random_randint_returns 3 7 w ltac:(lia)))
      as (n & w' & Hrun & Hn).
    exists (pretty n), w'. unfold mbind, Py_bind. rewrite Hrun.
    split; [reflexivity |]. pose proof (pretty_moderate n Hn) as Hmod.
    split; [apply moderate_in_scale, Hmod |]. split; [discriminate | auto].
Qed.

Lemma rating_extraction_in_scale_witness :
  Question.type rating_question = "rating"
  /\ ascii_only "I'd rate it 8 out of 10" = true
  /\ exists value w',
       _extract_answer_from_text rating_question "I'd rate it 8 out of 10"
         offline_world = (Ok value, w')
       /\ In value rating_scale.
Proof.
  split; [reflexivity |]. split; [reflexivity |].
  destruct (rating_extraction_in_scale rating_question "I'd rate it 8 out of 10"
              offline_world eq_refl eq_refl) as (value & w' & Hrun & Hin & _).
  exists value, w'. split; assumption.
Defined.

Lemma string_length_app (a b : string) :
  String.length (a +:+ b) = (String.length a + String.length b)%nat.
Proof. induction a as [| c a IH]; simpl; [reflexivity | rewrite IH; reflexivity]. Qed.

Lemma slice_to_length n s : (String.length (Str.slice_to n s) <= n)%nat.
Proof.
  unfold Str.slice_to. revert s. induction n as [| n IH]; intros s.
  - destruct s; simpl; lia.
  - destruct s as [| c s]; simpl; [lia |]. specialize (IH s). lia.
Qed.

Lemma slice_to_long n s :
  (n < String.length s)%nat -> String.length (Str.slice_to n s) = n.
Proof.
  unfold Str.slice_to. revert s. induction n as [| n IH]; intros s Hlt.
  - destruct s; reflexivity.
  - destruct s as [| c s]; simpl in *; [lia |]. rewrite IH by lia. reflexivity.
Qed.

(** X3: a question that is neither yes-no, nor a choice question with
    options, nor a rating question is answered from the text itself,
    here an ASCII text: the stripped text when it has 1 to 200
    characters, its first 200 characters followed by an ellipsis when it
    is longer, and a fixed phrase when it is empty.  The value is never
    empty, never longer than 203 characters, and the world is left as it
    is. *)
Theorem text_extraction (question : Question.t) (text : string) (w : World) :
  String.eqb (Question.type question) "yes-no" = false ->
  is_choice_with_options question = false ->
  String.eqb (Question.type question) "rating" = false ->
  ascii_only text = true ->
  exists value,
    _extract_answer_from_text question text w = (Ok value, w)
    /\ value <> ""
    /\ (String.length value <= 203)%nat
    /\ ((200 < String.length (Str.strip text))%nat ->
        value = Str.slice_to 200 (Str.strip text) +:+ "..."
        /\ String.length value = 203%nat)
    /\ ((String.length (Str.strip text) <= 200)%nat -> Str.strip text <> "" ->
        value = Str.strip text)
    /\ (Str.strip text = "" -> value = "I'm not sure about this one.").
Proof.
  intros Hyn Hchoice Hrating _. unfold _extract_answer_from_text.
  rewrite Hyn, Hchoice, Hrating. set (t := Str.strip text).
  destruct (Nat.ltb_spec 200 (String.length t)) as [Hlong | Hshort].
  - exists (Str.slice_to 200 t +:+ "..."). split; [reflexivity |].
    assert (Hlen : String.length (Str.slice_to 200 t +:+ "...") = 203%nat)
      by (rewrite string_length_app, slice_to_long by exact Hlong; reflexivity).
    split; [intros Hnil; rewrite Hnil in Hlen; discriminate Hlen |].
    split; [lia |]. split; [auto |]. split; [lia |].
    intros Hnil. rewrite Hnil in Hlong. simpl in Hlong. lia.
  - destruct (String.eqb_spec t "") as [Hnil | Hsome].
    + exists "I'm not sure about this one.". split; [reflexivity |].
      split; [discriminate |]. split; [simpl; lia |].
      split; [lia |]. split; [contradiction | auto].
    + exists t. split; [reflexivity |]. split; [exact Hsome |].
      split; [lia |]. split; [lia |]. split; [auto | contradiction].
Qed.

Lemma text_extraction_witness :
  String.eqb (Question.type text_question) "yes-no" = false
  /\ is_choice_with_options text_question = false
  /\ String.eqb (Question.type text_question) "rating" = false
  /\ ascii_only "  Fine by me.  " = true
  /\ exists value,
       _extract_answer_from_text text_question "  Fine by me.  " offline_world
       = (Ok value, offline_world)
       /\ value = "Fine by me.".
Proof.
  split; [reflexivity |]. split; [reflexivity |]. split; [reflexivity |].
  split; [reflexivity |].
  destruct (text_extraction text_question "  Fine by me.  " offline_world
              eq_refl eq_refl eq_refl eq_refl) as (value & Hrun & _ & _ & _ & Hshort & _).
  exists value. split; [exact Hrun |]. apply Hshort.
  - vm_compute. lia.
  - vm_compute. discriminate.
Defined.

Lemma random_option_value_offered question w :
  Question.options question <> [] ->
  (forall option, In option (Question.options question) ->
     exists v, option !! "value" = Some v) ->
  returns (random_option_value question) w
    (fun value _ => exists option,
       In option (Question.options question) /\ option !! "value" = Some value).
Proof.
  intros Hne Hall. unfold random_option_value. apply wp_bind.
  wp_after (apply random_choice_returns, Hne).
  intros option w' Hin. apply wp_bind.
  destruct (Question.options question) as [| first rest] eqn:Hopts; [congruence |].
  eapply wp_index; [reflexivity |]. apply wp_ret.
  exists option. split; [exact Hin |].
  destruct (Hall option Hin) as [v Hv]. unfold dict_get. rewrite Hv. reflexivity.
Qed.

(** X4: for a choice question with options that all carry a value, the
    free-text extraction always answers with the value of one of the
    options, whether an option was recognised in the text or one was
    drawn at random. *)
Theorem choice_extraction_offered (question : Question.t) (text : string) (w : World) :
  String.eqb (Question.type question) "yes-no" = false ->
  is_choice_with_options question = true ->
  (forall option, In option (Question.options question) ->
     exists v, option !! "value" = Some v) ->
  exists value w',
    _extract_answer_from_text question text w = (Ok value, w')
    /\ exists option,
         In option (Question.options question) /\ option !! "value" = Some value.
Proof.
  intros Hyn Hchoice Hall. unfold _extract_answer_from_text. rewrite Hyn, Hchoice.
  destruct (List.find _ (Question.options question)) as [option |] eqn:Hfind.
  - apply find_some in Hfind as [Hin _].
    destruct (Hall option Hin) as [v Hv].
    exists v, w. split.
    + unfold dict_get. rewrite Hv. reflexivity.
    + exists option. auto.
  - pose proof (random_option_value_offered question w
                  (is_choice_with_options_nonempty _ Hchoice) Hall) as Hrun.
    apply returns_eq in Hrun as (value & w' & Hrun & Hoffered). eauto.
Qed.

Lemma choice_extraction_offered_witness :
  String.eqb (Question.type colour_question) "yes-no" = false
  /\ is_choice_with_options colour_question = true
  /\ exists value w',
       _extract_answer_from_text colour_question "no idea" offline_world
       = (Ok value, w')
       /\ exists option,
            In option (Question.options colour_question)
            /\ option !! "value" = Some value.
Proof.
  split; [reflexivity |]. split; [reflexivity |].
  apply (choice_extraction_offered colour_question "no idea" offline_world);
    [reflexivity | reflexivity |].
  intros option Hin. simpl in Hin.
  destruct Hin as [<- | [<- | [<- | []]]]; eexists; reflexivity.
Defined.

(** X5: for a choice question with options and an ASCII text, when an
    option's text (its label, or its value when it has no label) occurs
    in the stripped text, letter case aside, and the text of no option
    in front of it does, these option texts being ASCII as well, the
    extraction answers with that option's value (its label when it has
    no value), without drawing anything. *)
Theorem choice_extraction_first_match (question : Question.t) (text : string)
    (before after : list (gmap string string)) (option : gmap string string)
    (w : World) :
  String.eqb (Question.type question) "yes-no" = false ->
  is_choice_with_options question = true ->
  Question.options question = (before ++ option :: after)%list ->
  ascii_only text = true ->
  (forall o, In o (before ++ [option])%list -> ascii_only (option_text o) = true) ->
  (forall other, In other before ->
     ~ exists pre post,
         Str.lower (Str.strip text) = pre +:+ option_text other +:+ post) ->
  (exists pre post, Str.lower (Str.strip text) = pre +:+ option_text option +:+ post) ->
  _extract_answer_from_text question text w = (Ok (option_value option), w).
Proof.
  intros Hyn Hchoice Hopts _ _ Hbefore Hhere. unfold _extract_answer_from_text.
  rewrite Hyn, Hchoice, Hopts. clear Hopts.
  induction before as [| other before IH]; cbn [app List.find].
  - fold (option_text option).
    rewrite (proj2 (contains_spec _ _) Hhere). reflexivity.
  - fold (option_text other).
    destruct (Str.contains (option_text other) (Str.lower (Str.strip text))) eqn:Hc.
    + exfalso. apply (Hbefore other); [left; reflexivity |].
      apply contains_spec, Hc.
    + apply IH. intros other' Hin. apply Hbefore. right. exact Hin.
Qed.

Lemma choice_extraction_first_match_witness :
  option_value {[ "value" := "blue" ]} = "blue"
  /\ ascii_only "Probably BLUE, I guess" = true
  /\ _extract_answer_from_text colour_question "Probably BLUE, I guess" offline_world
     = (Ok (option_value {[ "value" := "blue" ]}), offline_world).
Proof.
  split; [vm_compute; reflexivity |]. split; [reflexivity |].
  apply (choice_extraction_first_match colour_question "Probably BLUE, I guess"
           [ {[ "value" := "red"; "label" := "Red" ]} ]
           [ {[ "value" := "green"; "label" := "Green" ]} ]
           {[ "value" := "blue" ]} offline_world);
    [reflexivity | reflexivity | reflexivity | reflexivity | | |].
  - intros o [<- | [<- | []]]; vm_compute; reflexivity.
  - intros other [<- | []] Hin. apply contains_spec in Hin. vm_compute in Hin.
    discriminate Hin.
  - apply contains_spec. vm_compute. reflexivity.
Defined.

(** ** The parser, every path *)

(** X6: when the response has a braces span (from its first opening
    brace to its last closing brace) that json.loads rejects, the parser
    returns the Fallback Synthesizer's answer; the free-text extraction
    is not tried on such a response. *)
Theorem parser_undecodable_span (question : Question.t) (raw span : string)
    (w : World) :
  Re.search_braces raw = Some span ->
  Json.loads span = None ->
  _parse_llm_response question raw w = _generate_fallback_answer question w.
Proof.
  intros Hspan Hloads. unfold _parse_llm_response.
  rewrite (search_braces_some _ _ Hspan), Hspan.
  unfold try_except, json_loads, mbind, Py_bind, raise. rewrite Hloads. reflexivity.
Qed.

Lemma parser_undecodable_span_witness :
  Re.search_braces two_objects_reply = Some two_objects_reply
  /\ Json.loads two_objects_reply = None
  /\ _parse_llm_response yes_no_question two_objects_reply offline_world
     = _generate_fallback_answer yes_no_question offline_world.
Proof.
  assert (Hspan : Re.search_braces two_objects_reply = Some two_objects_reply)
    by (vm_compute; reflexivity).
  assert (Hloads : Json.loads two_objects_reply = None) by (vm_compute; reflexivity).
  split; [exact Hspan |]. split; [exact Hloads |].
  apply (parser_undecodable_span yes_no_question _ _ offline_world Hspan Hloads).
Defined.

(** X7: when the response has no braces span (no opening brace, or no
    closing brace after the first opening one), the parser answers, for
    every question type, with the value the free-text extraction gives,
    confidence 0.7 and the reasoning "Parsed from text response". *)
Theorem parser_free_text_path (question : Question.t) (raw : string) (w : World) :
  Re.search_braces raw = None ->
  exists value w',
    _extract_answer_from_text question raw w = (Ok value, w')
    /\ _parse_llm_response question raw w
       = (Ok (Answer.mk (Question.id question) (PyStr value) (7 # 10)
                        (PyStr "Parsed from text response")), w').
Proof.
  intros Hspan.
  destruct (proj1 (returns_eq _ _ _) (extract_returns question raw w))
    as (value & w' & Hrun & _).
  exists value, w'. split; [exact Hrun |].
  unfold _parse_llm_response. rewrite Hspan.
  destruct (Str.has_char "{" raw && Str.has_char "}" raw);
    unfold try_except, mbind, Py_bind; rewrite Hrun; reflexivity.
Qed.

Lemma parser_free_text_path_witness :
  Re.search_braces "} yes, I think {" = None
  /\ _parse_llm_response yes_no_question "} yes, I think {" offline_world
     = (Ok (Answer.mk 1 (PyStr "yes") (7 # 10) (PyStr "Parsed from text response")),
        offline_world).
Proof.
  split; [reflexivity |].
  destruct (parser_free_text_path yes_no_question "} yes, I think {" offline_world
              eq_refl) as (value & w' & Hrun & Hparse).
  rewrite Hparse. vm_compute in Hrun. injection Hrun as <- <-. reflexivity.
Defined.

(** X8: the parser returns an Answer for every question and every
    response (it never raises); the Answer carries the question's id, and
    the parser changes nothing in the world except the position of the
    random source. *)
Theorem parser_never_raises (question : Question.t) (response : string) (w : World) :
  exists answer w',
    _parse_llm_response question response w = (Ok answer, w')
    /\ Answer.question_id answer = Question.id question
    /\ draws_only w w'.
Proof.
  pose proof (returns_frames draws_only _ w _ (parse_returns question response w)
                (frames_parse question response)) as H.
  apply returns_eq in H as (answer & w' & Hrun & Hid & Hframe). eauto.
Qed.

(** ** The Humanizer, value and confidence *)

Lemma humanizer_value_returns answer question w :
  returns (make_answer_human_like answer question) w
    (fun answer' _ =>
       match Answer.value answer, String.eqb (Question.type question) "text" with
       | PyStr value, true =>
           exists pre core post,
             Answer.value answer' = PyStr (pre +:+ core +:+ post)
             /\ ((pre = "" /\ core = value)
                 \/ exists pattern, In pattern human_patterns_uncertainty
                      /\ pre = pattern +:+ " " /\ core = Str.lower value)
             /\ (post = ""
                 \/ exists hedge, In hedge human_patterns_hedging
                      /\ post = ", " +:+ hedge)
       | _, _ => Answer.value answer' = Answer.value answer
       end).
Proof.
  unfold make_answer_human_like. apply wp_bind.
  assert (Hrest : forall (a : Answer.t) (P : Answer.t -> Prop) w',
            (forall c, P (Answer.with_confidence c a)) ->
            wp (delta ← random_uniform (1 # 10) (3 # 10);
                mret (Answer.with_confidence
                        (py_max (2 # 10) (Answer.confidence a - delta)) a)) w'
               (fun answer' _ => P answer') (fun _ _ => False)).
  { intros a P w' HP. apply wp_bind.
    wp_after (apply random_uniform_returns; lra).
    intros delta w'' _. apply wp_ret. apply HP. }
  destruct (Answer.value answer) as [| | | | | value | |] eqn:Hvalue;
    try (apply wp_ret, Hrest; intros c; simpl; exact Hvalue).
  destruct (String.eqb (Question.type question) "text");
    [| apply wp_ret, Hrest; intros c; simpl; exact Hvalue].
  apply wp_bind. wp_after (apply random_random_returns).
  intros r1 w1 _. apply wp_bind.
  apply wp_mono with
    (P := fun value1 _ =>
            exists pre core, value1 = pre +:+ core
              /\ ((pre = "" /\ core = value)
                  \/ exists pattern, In pattern human_patterns_uncertainty
                       /\ pre = pattern +:+ " " /\ core = Str.lower value))
    (E := fun _ _ => False); [| | auto].
  { destruct (Qltb r1 (3 # 10)).
    - apply wp_bind. wp_after (apply random_choice_returns; discriminate).
      intros pattern w2 Hin. apply wp_ret.
      exists (pattern +:+ " "), (Str.lower value). split.
      + rewrite string_app_assoc. reflexivity.
      + right. exists pattern. auto.
    - apply wp_ret. exists "", value. split; [reflexivity | left; auto]. }
  intros value1 w2 (pre & core & -> & Hpre). apply wp_bind.
  wp_after (apply random_random_returns).
  intros r2 w3 _. apply wp_bind.
  apply wp_mono with
    (P := fun value2 _ =>
            exists post, value2 = pre +:+ core +:+ post
              /\ (post = ""
                  \/ exists hedge, In hedge human_patterns_hedging
                       /\ post = ", " +:+ hedge))
    (E := fun _ _ => False); [| | auto].
  { destruct (Qltb r2 (2 # 10)).
    - apply wp_bind. wp_after (apply random_choice_returns; discriminate).
      intros hedge w4 Hin. apply wp_ret.
      exists (", " +:+ hedge). split.
      + rewrite string_app_assoc. reflexivity.
      + right. exists hedge. auto.
    - apply wp_ret. exists "". split; [| left; reflexivity].
      rewrite string_app_nil_r. reflexivity. }
  intros value2 w4 (post & -> & Hpost). apply wp_ret, Hrest.
  intros c. simpl. exists pre, core, post. auto.
Qed.

(** X9: the Humanizer rewrites the value only of a string answer to a
    text question, here an ASCII string: it may put an uncertainty
    phrase and a space in front of the lower-cased value, and may append
    a comma, a space and a hedging word; the value of any other answer
    is returned as it is. *)
Theorem humanizer_value (answer : Answer.t) (question : Question.t) (w : World) :
  (forall value, Answer.value answer = PyStr value -> ascii_only value = true) ->
  exists answer' w',
    make_answer_human_like answer question w = (Ok answer', w')
    /\ match Answer.value answer, String.eqb (Question.type question) "text" with
       | PyStr value, true =>
           exists pre core post,
             Answer.value answer' = PyStr (pre +:+ core +:+ post)
             /\ ((pre = "" /\ core = value)
                 \/ exists pattern, In pattern human_patterns_uncertainty
                      /\ pre = pattern +:+ " " /\ core = Str.lower value)
             /\ (post = ""
                 \/ exists hedge, In hedge human_patterns_hedging
                      /\ post = ", " +:+ hedge)
       | _, _ => Answer.value answer' = Answer.value answer
       end.
Proof.
  intros _.
  destruct (proj1 (returns_eq _ _ _) (humanizer_value_returns answer question w))
    as (answer' & w' & Hrun & Hvalue).
  exists answer', w'. split; assumption.
Qed.

Lemma humanizer_value_witness :
  (forall value, Answer.value text_answer = PyStr value -> ascii_only value = true)
  /\ exists answer' w',
       make_answer_human_like text_answer text_question flaky_world = (Ok answer', w').
Proof.
  assert (Hascii : forall value,
            Answer.value text_answer = PyStr value -> ascii_only value = true)
    by (intros value [= <-]; reflexivity).
  split; [exact Hascii |].
  destruct (humanizer_value text_answer text_question flaky_world Hascii)
    as (answer' & w' & Hrun & _).
  exists answer', w'. exact Hrun.
Defined.

(** X10: an answer whose confidence is at most 0.3, as every answer of
    the Fallback Synthesizer is, leaves the Humanizer with confidence
    exactly 0.2. *)
Theorem humanizer_floors_low_confidence (answer : Answer.t) (question : Question.t)
    (w : World) :
  (Answer.confidence answer <= 3 # 10)%Q ->
  exists answer' w',
    make_answer_human_like answer question w = (Ok answer', w')
    /\ Answer.confidence answer' = 2 # 10.
Proof.
  intros Hlow.
  destruct (proj1 (returns_eq _ _ _) (humanizer_returns answer question w))
    as (answer' & w' & Hrun & _ & _ & delta & [Hd1 Hd2] & Hconf).
  exists answer', w'. split; [exact Hrun |]. rewrite Hconf.
  destruct (py_max_cases (2 # 10) (Answer.confidence answer - delta))
    as [[Hlt _] | [_ ->]]; [lra | reflexivity].
Qed.

Lemma humanizer_floors_low_confidence_witness :
  (Answer.confidence low_answer <= 3 # 10)%Q
  /\ exists answer' w',
       make_answer_human_like low_answer yes_no_question offline_world = (Ok answer', w')
       /\ Answer.confidence answer' = 2 # 10.
Proof.
  split.
  - simpl. lra.
  - apply (humanizer_floors_low_confidence low_answer yes_no_question offline_world).
    simpl. lra.
Defined.

(** X11: an answer whose confidence is at least 0.5 loses between 0.1
    and 0.3 of it in the Humanizer; an answer of the free-text path, with
    confidence 0.7, comes out between 0.4 and 0.6. *)
Theorem humanizer_reduction (answer : Answer.t) (question : Question.t) (w : World) :
  (5 # 10 <= Answer.confidence answer)%Q ->
  exists answer' w',
    make_answer_human_like answer question w = (Ok answer', w')
    /\ (Answer.confidence answer - (3 # 10) <= Answer.confidence answer'
        <= Answer.confidence answer - (1 # 10))%Q.
Proof.
  intros Hhigh.
  destruct (proj1 (returns_eq _ _ _) (humanizer_returns answer question w))
    as (answer' & w' & Hrun & _ & _ & delta & [Hd1 Hd2] & Hconf).
  exists answer', w'. split; [exact Hrun |]. rewrite Hconf.
  destruct (py_max_cases (2 # 10) (Answer.confidence answer - delta))
    as [[Hlt ->] | [Hle ->]]; lra.
Qed.

Lemma humanizer_reduction_witness :
  (5 # 10 <= Answer.confidence text_answer)%Q
  /\ exists answer' w',
       make_answer_human_like text_answer text_question offline_world = (Ok answer', w')
       /\ (4 # 10 <= Answer.confidence answer' <= 6 # 10)%Q.
Proof.
  split.
  - simpl. lra.
  - destruct (humanizer_reduction text_answer text_question offline_world)
      as (answer' & w' & Hrun & Hconf).
    + simpl. lra.
    + exists answer', w'. split; [exact Hrun |]. simpl in Hconf. lra.
Defined.

(** X12: the Humanizer returns for every answer and question (it never
    raises), keeps the answer's question_id and reasoning, and changes
    nothing in the world except the position of the random source. *)
Theorem humanizer_never_raises (answer : Answer.t) (question : Question.t) (w : World) :
  exists answer' w',
    make_answer_human_like answer question w = (Ok answer', w')
    /\ Answer.question_id answer' = Answer.question_id answer
    /\ Answer.reasoning answer' = Answer.reasoning answer
    /\ draws_only w w'.
Proof.
  pose proof (returns_frames draws_only _ w _ (humanizer_returns answer question w)
                (frames_humanizer answer question)) as H.
  apply returns_eq in H as (answer' & w' & Hrun & (Hid & Hwhy & _) & Hframe).
  exists answer', w'. auto.
Qed.

(** X13: running the Humanizer a second time never raises the
    confidence the first run produced: after one run the confidence is at
    least the floor 0.2, and from there it can only go down to the
    floor. *)
Theorem humanizer_twice (answer : Answer.t) (question : Question.t) (w : World) :
  exists answer1 w1 answer2 w2,
    make_answer_human_like answer question w = (Ok answer1, w1)
    /\ make_answer_human_like answer1 question w1 = (Ok answer2, w2)
    /\ (2 # 10 <= Answer.confidence answer2 <= Answer.confidence answer1)%Q.
Proof.
  destruct (proj1 (returns_eq _ _ _) (humanizer_returns answer question w))
    as (answer1 & w1 & Hrun1 & _ & _ & d1 & [Hd1 Hd1'] & Hc1).
  destruct (proj1 (returns_eq _ _ _) (humanizer_returns answer1 question w1))
    as (answer2 & w2 & Hrun2 & _ & _ & d2 & [Hd2 Hd2'] & Hc2).
  exists answer1, w1, answer2, w2. split; [exact Hrun1 |]. split; [exact Hrun2 |].
  assert (Hfloor : (2 # 10 <= Answer.confidence answer1)%Q).
  { rewrite Hc1.
    destruct (py_max_cases (2 # 10) (Answer.confidence answer - d1))
      as [[H1 ->] | [H1 ->]]; lra. }
  rewrite Hc2.
  destruct (py_max_cases (2 # 10) (Answer.confidence answer1 - d2))
    as [[H2 ->] | [H2 ->]]; lra.
Qed.

(** ** Accounting: calls, requests, cost and pauses *)

Lemma run_refl w : run 0 0 w w.
Proof.
  unfold run, replies, answered, charge. simpl.
  repeat split; try reflexivity; try lia.
  exists []. repeat split. constructor.
Qed.

Lemma replies_app w n m :
  replies w (n + m)
  = (replies w n ++ List.map (provider_tape w) (seq (provider_calls w + n) m))%list.
Proof. unfold replies. rewrite seq_app, List.map_app. reflexivity. Qed.

Lemma answered_app rs rs' : answered (rs ++ rs') = (answered rs + answered rs')%Z.
Proof.
  unfold answered. rewrite List.filter_app, length_app. lia.
Qed.

Lemma charge_app c cost rs rs' : charge c cost (rs ++ rs') = charge c (charge c cost rs) rs'.
Proof. unfold charge. apply fold_left_app. Qed.

Lemma run_trans n k m j w1 w2 w3 :
  run n k w1 w2 -> run m j w2 w3 -> run (n + m) (k + j) w1 w3.
Proof.
  intros (Ho & Ha & Hr & Hp & Hc & Hq & Ht & d1 & Hs1 & Hl1 & Hf1)
         (Ho' & Ha' & Hr' & Hp' & Hc' & Hq' & Ht' & d2 & Hs2 & Hl2 & Hf2).
  assert (Hreplies : replies w2 m
                     = List.map (provider_tape w1) (seq (provider_calls w1 + n) m))
    by (unfold replies; rewrite Hp, Hc; reflexivity).
  assert (Hcost : call_cost w2 = call_cost w1) by (unfold call_cost; rewrite Ho; reflexivity).
  unfold run. rewrite replies_app, answered_app, charge_app, <- Hreplies.
  split; [congruence |]. split; [congruence |]. split; [congruence |].
  split; [congruence |]. split; [lia |]. split; [lia |].
  split; [rewrite Ht', Hcost, Ht; reflexivity |].
  exists (d2 ++ d1)%list. rewrite Hs2, Hs1, app_assoc, length_app.
  split; [reflexivity |]. split; [lia |]. apply Forall_app. auto.
Qed.

Lemma draws_only_run w w' : draws_only w w' -> run 0 0 w w'.
Proof.
  intros [-> _]. destruct w; unfold run, replies, answered, charge; simpl.
  repeat split; try reflexivity; try lia.
  exists []. repeat split. constructor.
Qed.

(** what one call through a client does, by the provider's reply *)
Lemma provider_answer_effect (cost : Q) question w :
  try_except
    (response ← api_call;
     add_cost cost;;
     content ← first_content response;
     _parse_llm_response question content)
    (fun e => raise e) w
  = let w1 := set_provider_calls (S (provider_calls w)) w in
    let w2 := set_total_cost (total_cost w + cost)%Q w1 in
    match provider_tape w (provider_calls w) with
    | CallRaises => (Raise APIError, w1)
    | BadEnvelope => (Raise IndexError, w2)
    | Content s => _parse_llm_response question s w2
    end.
Proof.
  unfold try_except, api_call, add_cost, first_content, modify, mbind, Py_bind, raise.
  destruct (provider_tape w (provider_calls w)) as [| | s]; try reflexivity.
  cbn [total_cost set_provider_calls]. unfold mret, Py_ret.
  destruct (_parse_llm_response question s _) as [[answer | e] w3]; reflexivity.
Qed.

Lemma generate_answer_wrapped_online question context w :
  online w = true ->
  generate_answer_wrapped question context w
  = let w1 := set_provider_calls (S (provider_calls w)) w in
    let w2 := set_total_cost (total_cost w + call_cost w)%Q w1 in
    match provider_tape w (provider_calls w) with
    | CallRaises => _generate_fallback_answer question w1
    | BadEnvelope => _generate_fallback_answer question w2
    | Content s =>
        match _parse_llm_response question s w2 with
        | (Ok answer, w3) => (Ok answer, set_request_count (request_count w3 + 1) w3)
        | (Raise _, w3) => _generate_fallback_answer question w3
        end
    end.
Proof.
  intros Honline. unfold online in Honline.
  unfold generate_answer_wrapped, _generate_openai_answer, _generate_anthropic_answer,
    call_cost.
  unfold try_except at 1. unfold mbind at 1. unfold Py_bind at 1.
  unfold mbind at 1. unfold Py_bind at 1. unfold get at 1. cbv beta iota.
  destruct (openai_client w) eqn:Ho.
  - rewrite provider_answer_effect.
    destruct (provider_tape w (provider_calls w)) as [| | s]; try reflexivity.
    cbv zeta. destruct (_parse_llm_response question s _) as [[answer | e] w3]; reflexivity.
  - simpl in Honline. unfold mbind at 1. unfold Py_bind at 1. unfold get at 1.
    cbv beta iota. rewrite Honline. rewrite provider_answer_effect.
    destruct (provider_tape w (provider_calls w)) as [| | s]; try reflexivity.
    cbv zeta. destruct (_parse_llm_response question s _) as [[answer | e] w3]; reflexivity.
Qed.

Lemma run_one_call w w' :
  openai_client w' = openai_client w ->
  anthropic_client w' = anthropic_client w ->
  rand_tape w' = rand_tape w ->
  provider_tape w' = provider_tape w ->
  provider_calls w' = S (provider_calls w) ->
  slept w' = slept w ->
  request_count w'
  = (request_count w
     + if is_content (provider_tape w (provider_calls w)) then 1 else 0)%Z ->
  total_cost w'
  = match provider_tape w (provider_calls w) with
    | CallRaises => total_cost w
    | _ => (total_cost w + call_cost w)%Q
    end ->
  run 1 0 w w'.
Proof.
  intros Ho Ha Hr Hp Hc Hs Hq Ht. unfold run, replies, answered, charge.
  cbn [seq List.map List.filter fold_left].
  split; [exact Ho |]. split; [exact Ha |]. split; [exact Hr |]. split; [exact Hp |].
  split; [lia |]. split.
  { rewrite Hq. destruct (is_content _); reflexivity. }
  split.
  { rewrite Ht. destruct (provider_tape w (provider_calls w)); reflexivity. }
  exists []. split; [exact Hs |]. split; [reflexivity | constructor].
Qed.

(** what [generate_answer] gives and does, by configuration and reply *)
Lemma generate_answer_run question context w :
  returns (generate_answer question context) w
    (fun answer w' =>
       answers_to question answer
       /\ run (if online w then 1 else 0) 0 w w'
       /\ (online w = false -> is_fallback answer)
       /\ (online w = true ->
           match provider_tape w (provider_calls w) with
           | Content s =>
               exists w2 w3, draws_only w2 w3
                 /\ _parse_llm_response question s w2 = (Ok answer, w3)
           | _ => is_fallback answer
           end)).
Proof.
  unfold returns, wp. rewrite generate_answer_unfold.
  destruct (online w) eqn:Honline.
  - rewrite (generate_answer_wrapped_online _ _ _ Honline). cbv zeta.
    set (w1 := set_provider_calls (S (provider_calls w)) w).
    set (w2 := set_total_cost (total_cost w + call_cost w)%Q w1).
    destruct (provider_tape w (provider_calls w)) as [| | s] eqn:Hreply.
    + pose proof (returns_frames draws_only _ w1 _ (fallback_returns question w1)
                    (frames_fallback question)) as H.
      unfold returns, wp in H.
      destruct (_generate_fallback_answer question w1) as [[answer | e] w'];
        [| contradiction].
      destruct H as [[Hid Hfb] [Hw' _]].
      split; [exact Hid |]. split; [| split; [discriminate | auto]].
      rewrite Hw'. apply run_one_call; try reflexivity; try rewrite Hreply; simpl;
        solve [lia | reflexivity].
    + pose proof (returns_frames draws_only _ w2 _ (fallback_returns question w2)
                    (frames_fallback question)) as H.
      unfold returns, wp in H.
      destruct (_generate_fallback_answer question w2) as [[answer | e] w'];
        [| contradiction].
      destruct H as [[Hid Hfb] [Hw' _]].
      split; [exact Hid |]. split; [| split; [discriminate | auto]].
      rewrite Hw'. apply run_one_call; try reflexivity; try rewrite Hreply; simpl;
        solve [lia | reflexivity].
    + pose proof (returns_frames draws_only _ w2 _ (parse_returns question s w2)
                    (frames_parse question s)) as H.
      unfold returns, wp in H.
      destruct (_parse_llm_response question s w2) as [[answer | e] w3] eqn:Hparse;
        [| contradiction].
      destruct H as [Hid [Hw3 Hle]].
      split; [exact Hid |]. split; [| split; [discriminate |]].
      * rewrite Hw3. apply run_one_call; try reflexivity; try rewrite Hreply; simpl;
          solve [lia | reflexivity].
      * intros _. exists w2, w3. split; [split; assumption | exact Hparse].
  - unfold online in Honline. apply orb_false_iff in Honline as [Ho Ha].
    rewrite (generate_answer_no_clients _ _ _ Ho Ha).
    pose proof (returns_frames draws_only _ w _ (fallback_returns question w)
                  (frames_fallback question)) as H.
    unfold returns, wp in H.
    destruct (_generate_fallback_answer question w) as [[answer | e] w'];
      [| contradiction].
    destruct H as [[Hid Hfb] Hframe].
    split; [exact Hid |]. split; [apply draws_only_run, Hframe |].
    split; [auto | discriminate].
Qed.

(** X14: with a client configured, generate_answer makes exactly one
    provider call and never sleeps, whatever the reply.  A call that
    raises costs nothing and counts no request; a response without a
    usable first choice is charged but not counted; a response with
    content is charged and counted.  In the first two cases the answer is
    the Fallback Synthesizer's.  The charge is 0.002 when the OpenAI
    client is configured (also beside the Anthropic one), else 0.001. *)
Theorem generate_answer_accounting (question : Question.t) (context : option string)
    (w : World) :
  online w = true ->
  exists answer w',
    generate_answer question context w = (Ok answer, w')
    /\ provider_calls w' = S (provider_calls w)
    /\ slept w' = slept w
    /\ match provider_tape w (provider_calls w) with
       | CallRaises =>
           total_cost w' = total_cost w
           /\ request_count w' = request_count w
           /\ is_fallback answer
       | BadEnvelope =>
           total_cost w' = (total_cost w + call_cost w)%Q
           /\ request_count w' = request_count w
           /\ is_fallback answer
       | Content _ =>
           total_cost w' = (total_cost w + call_cost w)%Q
           /\ request_count w' = (request_count w + 1)%Z
       end.
Proof.
  intros Honline.
  destruct (proj1 (returns_eq _ _ _) (generate_answer_run question context w))
    as (answer & w' & Hrun & _ & Hacc & _ & Hreply).
  specialize (Hreply Honline). rewrite Honline in Hacc.
  destruct Hacc as (_ & _ & _ & _ & Hc & Hq & Ht & delays & Hs & Hlen & _).
  exists answer, w'. split; [exact Hrun |]. split; [lia |].
  split; [destruct delays; [exact Hs | discriminate Hlen] |].
  unfold replies, answered, charge in Hq, Ht.
  cbn [seq List.map List.filter fold_left] in Hq, Ht.
  destruct (provider_tape w (provider_calls w)) as [| | s]; simpl in Hq, Ht.
  - split; [exact Ht |]. split; [lia | exact Hreply].
  - split; [exact Ht |]. split; [lia | exact Hreply].
  - split; [exact Ht | lia].
Qed.

Lemma generate_answer_accounting_witness :
  online flaky_world = true
  /\ exists answer w',
       generate_answer yes_no_question None flaky_world = (Ok answer, w')
       /\ provider_calls w' = 1%nat
       /\ total_cost w' = total_cost flaky_world
       /\ request_count w' = 0%Z.
Proof.
  split; [reflexivity |].
  destruct (generate_answer_accounting yes_no_question None flaky_world eq_refl)
    as (answer & w' & Hrun & Hcalls & _ & Hreply).
  exists answer, w'. simpl in Hreply. destruct Hreply as (Hcost & Hcount & _).
  auto.
Defined.

(** ** The orchestrator's loops, with their accounting *)

Lemma run_online n k w w' : run n k w w' -> online w' = online w.
Proof. intros (Ho & Ha & _). unfold online. rewrite Ho, Ha. reflexivity. Qed.

Lemma gather_run context batch : forall w,
  returns (gather (fun q => generate_answer q context) batch) w
    (fun outcomes w' =>
       Forall2 (generated w) batch outcomes
       /\ run (if online w then length batch else 0) 0 w w').
Proof.
  unfold gather. induction batch as [| question batch IH]; intros w; simpl.
  - apply wp_ret. split; [constructor |].
    destruct (online w); apply run_refl.
  - apply wp_bind, wp_capture.
    eapply wp_mono with (P' := fun a w' => _) (E' := fun e w' => _);
      [apply generate_answer_run | | intros ? ? []].
    intros answer w1 (Hid & Hrun1 & Hoff & _). apply wp_bind.
    wp_after (apply IH).
    intros outcomes w2 [Hall Hrun2]. apply wp_ret.
    pose proof (run_online _ _ _ _ Hrun1) as Hon. rewrite Hon in Hrun2.
    split.
    + constructor.
      * exists answer. auto.
      * eapply Forall2_impl; [exact Hall |].
        intros q o (a & -> & Hq & Hf). exists a. rewrite <- Hon. auto.
    + pose proof (run_trans _ _ _ _ _ _ _ Hrun1 Hrun2) as Hrun.
      destruct (online w); exact Hrun.
Qed.

Lemma humanized_delivered w question answer answer' :
  answers_to question answer ->
  (online w = false -> is_fallback answer) ->
  humanized answer answer' ->
  delivered w question answer'.
Proof.
  intros Hid Hoff (Hid' & Hwhy & delta & [Hd1 Hd2] & Hconf).
  unfold delivered, answers_to in *. split; [congruence |].
  destruct (py_max_cases (2 # 10) (Answer.confidence answer - delta))
    as [[Hlt Hmax] | [Hle Hmax]]; rewrite Hmax in Hconf.
  - split; [rewrite Hconf; lra |]. intros Hoffline.
    destruct (Hoff Hoffline) as [Hc _]. rewrite Hc in Hlt. lra.
  - split; [rewrite Hconf; lra |]. intros Hoffline.
    destruct (Hoff Hoffline) as [_ Hr]. split; [exact Hconf | congruence].
Qed.

(** the loop over a batch's outcomes, with what it hands out *)
Lemma batch_loop_delivers w0 batch outcomes : forall k answers w,
  Forall2 (generated w0) (drop k batch) outcomes ->
  returns
    (for_fold (fun answers '(j, result) =>
         result ←
           match result with
           | Raise _ => index batch j ≫= _generate_fallback_answer
           | Ok answer => mret answer
           end;
         question ← index batch j;
         result ← make_answer_human_like result question;
         mret (answers ++ [result])%list)
       answers (combine (seq k (length outcomes)) outcomes)) w
    (fun answers' _ =>
       exists new, answers' = (answers ++ new)%list
                   /\ Forall2 (delivered w0) (drop k batch) new).
Proof.
  induction outcomes as [| outcome outcomes IH]; intros k answers w Hall.
  - inversion Hall as [Hnil |]. apply wp_ret. exists []. rewrite app_nil_r.
    split; [reflexivity | constructor].
  - inversion Hall as [| question ? rest ? Hout Hrest Hdrop]; subst.
    symmetry in Hdrop. destruct (drop_cons_inv _ _ _ _ Hdrop) as [Hk Hrest'].
    destruct Hout as (answer & -> & Hid & Hoff).
    cbn [length seq combine for_fold]. apply wp_bind, wp_bind, wp_ret.
    apply wp_bind. eapply wp_index; [exact Hk |].
    apply wp_bind. wp_after (apply humanizer_returns).
    intros answer' w2 Hhuman. apply wp_ret.
    wp_after (apply (IH (S k)); rewrite Hrest'; exact Hrest).
    intros answers' w3 (new & -> & Hnew). cbn beta.
    exists (answer' :: new). rewrite <- app_assoc. split; [reflexivity |].
    constructor; [| rewrite <- Hrest'; exact Hnew].
    eapply humanized_delivered; eassumption.
Qed.

Lemma frames_batch_loop batch (pairs : list (nat * result Answer.t)) answers :
  frames draws_only
    (for_fold (fun answers '(j, result) =>
         result ←
           match result with
           | Raise _ => index batch j ≫= _generate_fallback_answer
           | Ok answer => mret answer
           end;
         question ← index batch j;
         result ← make_answer_human_like result question;
         mret (answers ++ [result])%list)
       answers pairs).
Proof.
  apply frames_for_fold; [apply _ |].
  intros s [j result].
  pose proof frames_fallback. pose proof frames_humanizer.
  frames_auto.
Qed.

Lemma pause_run (pause : bool) w :
  returns (if pause then random_uniform 1 3 ≫= sleep else mret tt) w
    (fun _ w' => run 0 (if pause then 1 else 0) w w').
Proof.
  destruct pause; [| apply wp_ret, run_refl].
  apply wp_bind.
  pose proof (returns_frames draws_only _ w _
                (random_uniform_returns 1 3 w ltac:(lra))
                (frames_random_uniform 1 3)) as H.
  eapply (wp_mono _ _ _ _ _ _ H); [| auto].
  intros d w1 [Hd [Hw1 _]]. apply wp_modify. rewrite Hw1.
  destruct w; unfold run, replies, answered, charge; simpl.
  repeat (split; [reflexivity || lia |]).
  exists [d]. split; [reflexivity |]. split; [reflexivity |].
  constructor; [exact Hd | constructor].
Qed.

Lemma delivered_online w w' question answer :
  online w' = online w -> delivered w' question answer -> delivered w question answer.
Proof. unfold delivered. intros ->. auto. Qed.

Lemma batches_bounds n :
  let batches := ((n + batch_size - 1) / batch_size)%nat in
  (n <= batches * batch_size /\ batches * batch_size <= n + 2)%nat.
Proof.
  unfold batch_size. cbv zeta.
  pose proof (Nat.div_mod_eq (n + 3 - 1) 3) as Hdiv.
  pose proof (Nat.mod_upper_bound (n + 3 - 1) 3 ltac:(discriminate)) as Hmod.
  lia.
Qed.

(** the loop over the batches, from batch [k0] to the last one *)
Lemma batches_loop_run questions context : forall m k0 answers w,
  (k0 + m = (length questions + batch_size - 1) / batch_size)%nat ->
  returns
    (for_fold (fun answers i =>
         let batch := slice i (i + batch_size) questions in
         batch_answers ← gather (fun q => generate_answer q context) batch;
         answers ←
           for_fold (fun answers '(j, result) =>
               result ←
                 match result with
                 | Raise _ => index batch j ≫= _generate_fallback_answer
                 | Ok answer => mret answer
                 end;
               question ← index batch j;
               result ← make_answer_human_like result question;
               mret (answers ++ [result])%list)
             answers (enumerate batch_answers);
         (if (i + batch_size <? length questions)%nat then
            random_uniform 1 3 ≫= sleep
          else mret tt);;
         mret answers)
       answers (List.map (fun k => k * batch_size)%nat (seq k0 m))) w
    (fun answers' w' =>
       exists new,
         answers' = (answers ++ new)%list
         /\ Forall2 (delivered w) (drop (k0 * batch_size) questions) new
         /\ run (if online w then length (drop (k0 * batch_size) questions) else 0)
                (m - 1) w w').
Proof.
  pose proof (batches_bounds (length questions)) as [Hcover Htight].
  cbv zeta in Hcover, Htight.
  induction m as [| m IH]; intros k0 answers w Hlast.
  - apply wp_ret. exists []. rewrite app_nil_r. split; [reflexivity |].
    rewrite Nat.add_0_r in Hlast. subst k0.
    rewrite drop_ge by exact Hcover. split; [constructor |].
    destruct (online w); apply run_refl.
  - cbn [seq List.map for_fold]. apply wp_bind.
    set (i := (k0 * batch_size)%nat) in *.
    set (batch := slice i (i + batch_size) questions). cbv zeta.
    assert (Hbatch : batch = take batch_size (drop i questions)).
    { unfold batch, slice. f_equal. lia. }
    assert (Hnext : drop (S k0 * batch_size) questions
                    = drop batch_size (drop i questions)).
    { rewrite drop_drop. f_equal. unfold i. lia. }
    apply wp_bind. wp_after (apply gather_run).
    intros outcomes w1 [Hall Hrun1]. apply wp_bind. unfold enumerate.
    pose proof (returns_frames draws_only _ w1 _
                  (batch_loop_delivers w batch outcomes 0%nat answers w1
                     ltac:(rewrite drop_0; exact Hall))
                  (frames_batch_loop batch _ answers)) as Hloop.
    eapply (wp_mono _ _ _ _ _ _ Hloop); [| auto].
    intros answers1 w2 [(new1 & -> & Hnew1) Hframe]. rewrite drop_0 in Hnew1.
    apply wp_bind. wp_after (apply pause_run).
    intros [] w3 Hrun3. apply wp_ret.
    pose proof (run_trans _ _ _ _ _ _ _ Hrun1 (draws_only_run _ _ Hframe)) as Hrun12.
    pose proof (run_trans _ _ _ _ _ _ _ Hrun12 Hrun3) as Hrun13.
    pose proof (run_online _ _ _ _ Hrun13) as Hon.
    wp_after (apply (IH (S k0)); lia).
    intros answers' w4 (new2 & -> & Hnew2 & Hrun4). cbn beta.
    exists (new1 ++ new2)%list. rewrite app_assoc. split; [reflexivity |].
    rewrite Hnext in Hnew2, Hrun4. rewrite Hon in Hrun4.
    split.
    + rewrite <- (take_drop batch_size (drop i questions)), <- Hbatch.
      apply Forall2_app; [exact Hnew1 |].
      eapply Forall2_impl; [exact Hnew2 |].
      intros q a. apply delivered_online, Hon.
    + pose proof (run_trans _ _ _ _ _ _ _ Hrun13 Hrun4) as Hrun.
      assert (Hlen : (length batch + length (drop batch_size (drop i questions))
                      = length (drop i questions))%nat).
      { rewrite Hbatch, <- length_app, take_drop. reflexivity. }
      assert (Hpauses : ((0 + 0 + (if (i + batch_size <? length questions)%nat
                                   then 1 else 0) + (m - 1))
                         = S m - 1)%nat).
      { unfold i, batch_size in *.
        destruct (Nat.ltb_spec (k0 * 3 + 3) (length questions)); lia. }
      rewrite Hpauses in Hrun.
      destruct (online w); [| exact Hrun].
      rewrite <- Hlen.
      replace (length batch + length (drop batch_size (drop i questions)))%nat
        with (length batch + 0 + 0
              + length (drop batch_size (drop i questions)))%nat by lia.
      exact Hrun.
Qed.

Lemma process_run questions context w :
  returns (process_poll_questions questions context) w
    (fun answers w' =>
       Forall2 (delivered w) questions answers
       /\ run (if online w then length questions else 0)
              ((length questions + batch_size - 1) / batch_size - 1) w w').
Proof.
  pose proof (batches_loop_run questions context
                ((length questions + batch_size - 1) / batch_size) 0 [] w eq_refl) as H.
  unfold process_poll_questions, range_step.
  eapply (wp_mono _ _ _ _ _ _ H); [| auto].
  intros answers w' (new & -> & Hnew & Hrun). rewrite drop_0 in Hnew, Hrun.
  split; assumption.
Qed.

Lemma Forall2_right {A B} (R : A -> B -> Prop) (P : B -> Prop) l l' :
  Forall2 R l l' -> (forall x y, R x y -> P y) -> Forall P l'.
Proof.
  intros Hall HP. induction Hall as [| x y l l' Hxy _ IH]; constructor; eauto.
Qed.

Lemma replies_length w n : length (replies w n) = n.
Proof. unfold replies. rewrite length_map, length_seq. reflexivity. Qed.

Lemma answered_bounds rs : (0 <= answered rs <= Z.of_nat (length rs))%Z.
Proof.
  unfold answered. pose proof (List.filter_length_le is_content rs). lia.
Qed.

Lemma charge_bounds c rs : forall cost,
  (0 <= c)%Q ->
  (cost <= charge c cost rs <= cost + inject_Z (Z.of_nat (length rs)) * c)%Q.
Proof.
  unfold charge. induction rs as [| r rs IH]; intros cost Hc.
  - cbn [fold_left length]. change (inject_Z (Z.of_nat 0)) with 0%Q. lra.
  - cbn [fold_left length]. rewrite Nat2Z.inj_succ, <- Z.add_1_r, inject_Z_plus.
    change (inject_Z 1) with 1%Q.
    generalize dependent (inject_Z (Z.of_nat (length rs))). intros n IH.
    destruct r; [specialize (IH cost Hc) | specialize (IH (cost + c)%Q Hc) ..];
      assert (0 <= n * c \/ n * c <= 0)%Q by (destruct (Qlt_le_dec 0 (n * c)); lra);
      lra.
Qed.

Lemma call_cost_nonneg w : (0 <= call_cost w)%Q.
Proof. unfold call_cost. destruct (openai_client w); lra. Qed.

(** X15: with a client configured, process_poll_questions makes exactly
    one provider call per question.  It counts one request for each
    reply with content and charges each call that did not raise, so that
    request_count grows by at most the number of questions and
    total_cost by at most that number of call costs; the configuration
    is left as it was. *)
Theorem process_accounting (questions : list Question.t) (context : option string)
    (w : World) :
  online w = true ->
  exists answers w',
    process_poll_questions questions context w = (Ok answers, w')
    /\ provider_calls w' = (provider_calls w + length questions)%nat
    /\ request_count w'
       = (request_count w + answered (replies w (length questions)))%Z
    /\ total_cost w'
       = charge (call_cost w) (total_cost w) (replies w (length questions))
    /\ (request_count w <= request_count w'
        <= request_count w + Z.of_nat (length questions))%Z
    /\ (total_cost w <= total_cost w'
        <= total_cost w + inject_Z (Z.of_nat (length questions)) * call_cost w)%Q
    /\ openai_client w' = openai_client w
    /\ anthropic_client w' = anthropic_client w.
Proof.
  intros Honline.
  destruct (proj1 (returns_eq _ _ _) (process_run questions context w))
    as (answers & w' & Hrun & _ & Hacc).
  rewrite Honline in Hacc.
  destruct Hacc as (Ho & Ha & _ & _ & Hc & Hq & Ht & _).
  exists answers, w'. split; [exact Hrun |]. split; [exact Hc |].
  split; [exact Hq |]. split; [exact Ht |].
  pose proof (answered_bounds (replies w (length questions))) as Hab.
  pose proof (charge_bounds (call_cost w) (replies w (length questions))
                (total_cost w) (call_cost_nonneg w)) as Hcb.
  rewrite replies_length in Hab, Hcb. rewrite Hq, Ht.
  split; [lia |]. split; [exact Hcb |]. split; assumption.
Qed.

Lemma process_accounting_witness :
  online flaky_world = true
  /\ exists answers w',
       process_poll_questions [yes_no_question; rating_question; text_question;
                               yes_no_question] None flaky_world = (Ok answers, w')
       /\ provider_calls w' = 4%nat
       /\ request_count w' = 3%Z.
Proof.
  split; [reflexivity |].
  destruct (process_accounting [yes_no_question; rating_question; text_question;
                                yes_no_question] None flaky_world eq_refl)
    as (answers & w' & Hrun & Hcalls & Hcount & _).
  exists answers, w'. split; [exact Hrun |]. split; [exact Hcalls |].
  rewrite Hcount. vm_compute. reflexivity.
Defined.

(** X16: process_poll_questions sleeps once between two consecutive
    batches of three and not after the last one: ceil(n / 3) - 1 times
    for n > 0 questions and never for none, each time for a delay
    between 1 and 3; nothing else in it sleeps. *)
Theorem process_pacing (questions : list Question.t) (context : option string)
    (w : World) :
  exists answers w' delays,
    process_poll_questions questions context w = (Ok answers, w')
    /\ slept w' = (delays ++ slept w)%list
    /\ length delays = ((length questions + 2) / 3 - 1)%nat
    /\ Forall (fun d => (1 <= d <= 3)%Q) delays.
Proof.
  destruct (proj1 (returns_eq _ _ _) (process_run questions context w))
    as (answers & w' & Hrun & _ & Hacc).
  destruct Hacc as (_ & _ & _ & _ & _ & _ & _ & delays & Hs & Hlen & Hall).
  exists answers, w', delays. split; [exact Hrun |]. split; [exact Hs |].
  split; [| exact Hall]. rewrite Hlen. unfold batch_size.
  replace (length questions + 3 - 1)%nat with (length questions + 2)%nat by lia.
  reflexivity.
Qed.

(** X17: every Answer process_poll_questions returns has a confidence of
    at least 0.2, whatever confidence the provider stated. *)
Theorem process_confidence_floor (questions : list Question.t)
    (context : option string) (w : World) :
  exists answers w',
    process_poll_questions questions context w = (Ok answers, w')
    /\ Forall (fun answer => (2 # 10 <= Answer.confidence answer)%Q) answers.
Proof.
  destruct (proj1 (returns_eq _ _ _) (process_run questions context w))
    as (answers & w' & Hrun & Hall & _).
  exists answers, w'. split; [exact Hrun |].
  eapply Forall2_right; [exact Hall |]. intros q a (_ & Hconf & _). exact Hconf.
Qed.

(** X18: with no client configured, process_poll_questions makes no
    provider call, charges nothing and counts no request, and every
    Answer it returns is a humanized fallback: confidence exactly 0.2 and
    reasoning "Fallback answer due to API failure". *)
Theorem process_offline (questions : list Question.t) (context : option string)
    (w : World) :
  online w = false ->
  exists answers w',
    process_poll_questions questions context w = (Ok answers, w')
    /\ provider_calls w' = provider_calls w
    /\ request_count w' = request_count w
    /\ total_cost w' = total_cost w
    /\ Forall (fun answer =>
                 Answer.confidence answer = 2 # 10
                 /\ Answer.reasoning answer
                    = PyStr "Fallback answer due to API failure") answers.
Proof.
  intros Hoff.
  destruct (proj1 (returns_eq _ _ _) (process_run questions context w))
    as (answers & w' & Hrun & Hall & Hacc).
  rewrite Hoff in Hacc.
  destruct Hacc as (_ & _ & _ & _ & Hc & Hq & Ht & _).
  exists answers, w'. split; [exact Hrun |].
  split; [lia |]. split; [unfold replies, answered in Hq; simpl in Hq; lia |].
  split; [exact Ht |].
  eapply Forall2_right; [exact Hall |]. intros q a (_ & _ & Hfb). auto.
Qed.

Lemma process_offline_witness :
  online offline_world = false
  /\ exists answers w',
       process_poll_questions [yes_no_question; rating_question] None offline_world
       = (Ok answers, w')
       /\ provider_calls w' = 0%nat
       /\ Forall (fun answer =>
                    Answer.confidence answer = 2 # 10
                    /\ Answer.reasoning answer
                       = PyStr "Fallback answer due to API failure") answers.
Proof.
  split; [reflexivity |].
  destruct (process_offline [yes_no_question; rating_question] None offline_world
              eq_refl) as (answers & w' & Hrun & Hcalls & _ & _ & Hall).
  exists answers, w'. auto.
Defined.
